(** * job_throughput: workload generator, admission loop and metrics

    A shallow embedding of [job_throughput.py].

    Conventions of the embedding:
    - Python [int] is [Z]; JSON numbers that may be fractional (ratios, the
      test window, wall-clock instants) are exact rationals [Q], so [/] is
      exact division and [round] is round-half-to-even on the exact quotient.
      The source divides in binary64, where a quotient is rounded to 53 bits
      and [round] raises on a value that overflowed: the properties of the
      task counts that are stated for a class of job mixes are stated for the
      entries [exact_entry], on which the two computations give the same
      counts ([round_stable]), and the statement that the metrics are
      computed is made for a node count and a window below [2 ^ 53];
    - a Python exception is the [Raise] case of [result];
    - [subprocess.run], [time.time], [time.sleep], [random] and [print] act on
      an explicit [world]: a clock, a counter of external calls and the trace
      of events, driven by an environment [env] of replies and latencies;
    - text produced by the external commands is ASCII; a configuration text
      that a statement reads through [str.strip] is ASCII by a hypothesis of
      that statement ([queue_name_ascii]);
    - the template files, the sqlite database and the PDF report are written
      but never read back by [main]: the database writes appear as events,
      and [write_slurm_templates] is modelled on its own, over a map from the
      paths that exist to their content.  The report is left out: [main] is
      the run up to the metrics it prints, and the call of
      [generate_pdf_report] that follows them, which can raise, is not part
      of it. *)

From Stdlib Require Import ZArith QArith Qround Qabs Lia Lqa Ascii.
From stdpp Require Import gmap strings list pretty.

Local Open Scope Z_scope.
#[local] Set Warnings "-clear-no-such-hyp".

(** ** Exceptions and results *)

Inductive exn : Type :=
  | ZeroDivisionError
  | ValueError
  | IndexError.

Inductive result (A : Type) : Type :=
  | Ok (a : A)
  | Raise (e : exn).
Arguments Ok {A} a.
Arguments Raise {A} e.

Definition rbind {A B : Type} (r : result A) (k : A -> result B) : result B :=
  match r with
  | Ok a => k a
  | Raise e => Raise e
  end.

Notation "'do' x <~ r ;; k" := (rbind r (fun x => k))
  (at level 100, x name, r at level 99, k at level 100, right associativity).

Fixpoint rmap {A B : Type} (f : A -> result B) (l : list A) : result (list B) :=
  match l with
  | [] => Ok []
  | a :: l' => do b <~ f a ;; do bs <~ rmap f l' ;; Ok (b :: bs)
  end.

Fixpoint rfold {A B : Type} (f : A -> B -> result A) (l : list B) (a : A) : result A :=
  match l with
  | [] => Ok a
  | b :: l' => do a' <~ f a b ;; rfold f l' a'
  end.

(** ** Data model *)

(** One element of [job_def["durations"]]. *)
Record duration_def : Type := {
  minutes : Z;
  ratio : Q
}.

(** One element of the configuration's ["jobs"] list. *)
Record job_def : Type := {
  nodes : Z;
  count : Z;
  durations : list duration_def
}.

(** The dict [{"nodes": node, "duration": minutes}] appended to [data]. *)
Record task : Type := {
  task_nodes : Z;
  task_duration : Z
}.

(** ** Numbers *)

(** [round(x)] with one argument: the nearest integer, ties to even.  The
    argument is an exact rational: [round] of a binary64 that overflowed
    raises, a case that does not arise on the entries of [exact_entry]. *)
Definition py_round (x : Q) : Z :=
  let f := Qfloor x in
  match Qcompare (x - inject_Z f) (1 # 2) with
  | Lt => f
  | Gt => f + 1
  | Eq => if Z.even f then f else f + 1
  end.

(** [sum(xs)]: starts from 0 and adds from the left. *)
Definition sum_Q (xs : list Q) : Q := fold_left Qplus xs 0%Q.
Definition sum_Z (xs : list Z) : Z := fold_left Z.add xs 0.

(** [a / b] on numbers. *)
Definition py_div (a b : Q) : result Q :=
  if Qeq_bool b 0 then Raise ZeroDivisionError else Ok (a / b)%Q.

(** ** generate_task_list *)

(** [int(round(count * d["ratio"] / total_ratio))] for each [d], on the exact
    quotient; [round_stable] relates it to the binary64 quotient. *)
Definition rounded_counts (cnt : Z) (ds : list duration_def) : result (list Z) :=
  let total_ratio := sum_Q (map ratio ds) in
  rmap (fun d => do q <~ py_div (inject_Z cnt * ratio d) total_ratio ;; Ok (py_round q)) ds.

(** The body of [for i in range(abs(diff))]. *)
Definition adjust_step (diff : Z) (curr : list Z) (i : nat) : result (list Z) :=
  match length curr with
  | O => Raise ZeroDivisionError
  | S _ =>
      let idx := (i mod length curr)%nat in
      match curr !! idx with
      | None => Raise IndexError
      | Some c =>
          if 0 <? diff then Ok (<[idx := c + 1]> curr)
          else if (diff <? 0) && (0 <? c) then Ok (<[idx := c - 1]> curr)
          else Ok curr
      end
  end.

Definition adjust_counts (cnt : Z) (curr : list Z) : result (list Z) :=
  let diff := cnt - sum_Z curr in
  rfold (adjust_step diff) (seq 0 (Z.to_nat (Z.abs diff))) curr.

(** The two inner loops that append to [data]. *)
Definition materialize (node : Z) (ds : list duration_def) (counts : list Z) : list task :=
  flat_map
    (fun dc => replicate (Z.to_nat (snd dc))
                 {| task_nodes := node; task_duration := minutes (fst dc) |})
    (zip ds counts).

Definition entry_tasks (jd : job_def) : result (list task) :=
  do curr <~ rounded_counts (count jd) (durations jd) ;;
  do curr' <~ adjust_counts (count jd) curr ;;
  Ok (materialize (nodes jd) (durations jd) curr').

Definition unshuffled_tasks (job_defs : list job_def) : result (list task) :=
  rfold (fun data jd => do ts <~ entry_tasks jd ;; Ok (data ++ ts)) job_defs [].

(** [x[i], x[j] = x[j], x[i]] *)
Definition swap {A : Type} (i j : nat) (x : list A) : list A :=
  match x !! i, x !! j with
  | Some a, Some b => <[j := a]> (<[i := b]> x)
  | _, _ => x
  end.

(** [random.shuffle]: for [i] from [len(x) - 1] down to 1, exchange [x[i]]
    with [x[randbelow(i + 1)]].  [rnd k] is the raw value behind the [k]-th
    draw, reduced to the requested range. *)
Fixpoint shuffle_from {A : Type} (rnd : nat -> nat) (k i : nat) (x : list A) : list A :=
  match i with
  | O => x
  | S i' => shuffle_from rnd (S k) i' (swap i (rnd k mod (i + 1))%nat x)
  end.

Definition shuffle {A : Type} (rnd : nat -> nat) (x : list A) : list A :=
  shuffle_from rnd 0 (length x - 1) x.

Definition generate_task_list (rnd : nat -> nat) (job_defs : list job_def) : result (list task) :=
  do data <~ unshuffled_tasks job_defs ;;
  Ok (shuffle rnd data).

(** ** get_duration_template_map *)

(** [f"job_{minutes}min.slurm"] *)
Definition template_name (m : Z) : string :=
  "job_" +:+ pretty m +:+ "min.slurm".

Definition add_template (templates : gmap Z string) (d : duration_def) : gmap Z string :=
  match templates !! minutes d with
  | Some _ => templates
  | None => <[minutes d := template_name (minutes d)]> templates
  end.

Definition get_duration_template_map (job_defs : list job_def) : gmap Z string :=
  fold_left (fun templates jd => fold_left add_template (durations jd) templates)
            job_defs ∅.

(** ** Strings *)

(** [str.isspace] on one ASCII character: tab, line feed, vertical tab, form
    feed, carriage return, the four separators 28..31 and the space.  A
    text with other characters (the no-break space is white space for
    [str.strip]) is outside the embedding. *)
Definition is_py_space (c : ascii) : bool :=
  let n := nat_of_ascii c in
  ((9 <=? n) && (n <=? 13) || (28 <=? n) && (n <=? 32))%nat.

(** [s.split()] without argument: the maximal runs of non-space characters. *)
Fixpoint py_split_go (cur : option string) (s : string) : list string :=
  match s with
  | EmptyString => option_list (String.rev <$> cur)
  | String c s' =>
      if is_py_space c
      then option_list (String.rev <$> cur) ++ py_split_go None s'
      else py_split_go (Some (String c (default EmptyString cur))) s'
  end.

Definition py_split (s : string) : list string := py_split_go None s.

Fixpoint py_lstrip (s : string) : string :=
  match s with
  | EmptyString => EmptyString
  | String c s' => if is_py_space c then py_lstrip s' else s
  end.

(** [s.strip()] *)
Definition py_strip (s : string) : string :=
  String.rev (py_lstrip (String.rev (py_lstrip s))).

(** The ASCII line boundaries of [str.splitlines]. *)
Definition is_line_break (c : ascii) : bool :=
  let n := nat_of_ascii c in
  ((10 <=? n) && (n <=? 13) || (28 <=? n) && (n <=? 30))%nat.

(** [s.splitlines()]: carriage return followed by line feed is one boundary,
    and a final boundary does not open an empty last line. *)
Fixpoint py_splitlines_go (cur : string) (s : string) : list string :=
  match s with
  | EmptyString =>
      match cur with
      | EmptyString => []
      | _ => [String.rev cur]
      end
  | String c s' =>
      if is_line_break c then
        match c, s' with
        | "013"%char, String "010"%char s'' => String.rev cur :: py_splitlines_go EmptyString s''
        | _, _ => String.rev cur :: py_splitlines_go EmptyString s'
        end
      else py_splitlines_go (String c cur) s'
  end.

Definition py_splitlines (s : string) : list string := py_splitlines_go EmptyString s.

Definition digit_value (c : ascii) : option Z :=
  let n := nat_of_ascii c in
  if ((48 <=? n) && (n <=? 57))%nat then Some (Z.of_nat n - 48) else None.

(** The digits of a decimal literal; single underscores may separate digits. *)
Fixpoint py_digits (acc : Z) (after_digit : bool) (s : string) : option Z :=
  match s with
  | EmptyString => if after_digit then Some acc else None
  | String c s' =>
      if Ascii.eqb c "_" then
        if after_digit then py_digits acc false s' else None
      else
        match digit_value c with
        | Some d => py_digits (10 * acc + d) true s'
        | None => None
        end
  end.

(** [int(s)] on a string. *)
Definition py_int (s : string) : result Z :=
  let body :=
    match py_strip s with
    | String "-" r => Z.opp <$> py_digits 0 false r
    | String "+" r => py_digits 0 false r
    | r => py_digits 0 false r
    end in
  match body with
  | Some z => Ok z
  | None => Raise ValueError
  end.

(** [sep.join(xs)] *)
Fixpoint py_join (sep : string) (xs : list string) : string :=
  match xs with
  | [] => EmptyString
  | [x] => x
  | x :: xs' => x +:+ sep +:+ py_join sep xs'
  end.

(** ['.' in s] *)
Fixpoint has_dot (s : string) : bool :=
  match s with
  | EmptyString => false
  | String c s' => Ascii.eqb c "." || has_dot s'
  end.

(** ** The world: clock, external commands, trace *)

(** What [subprocess.run] hands back. *)
Record proc_result : Type := {
  returncode : Z;
  stdout : string
}.

(** The dict appended to the global [submitted_jobs].  ['submit_time'] holds
    the instant read by [datetime.now()]; the source keeps its rendering
    with [strftime("%Y-%m-%d %H:%M:%S")]. *)
Record job_info : Type := {
  jobid : string;
  job_nodes : Z;
  job_duration : Z;
  submit_time : Q;
  script_file : option string
}.

(** The lines the program prints inside the admission loop. *)
Inductive message : Type :=
  | MsgTemplateMissing (duration_min : Z)
  | MsgSubmitted (j : job_info) (used_nodes total_nodes : Z)
  | MsgSubmitFailed (script : option string)
  | MsgAllSubmitted (wait_seconds : Q).

Inductive event : Type :=
  | EvRun (cmd : string)
  | EvSleep (secs : Q)
  | EvPrint (m : message)
  | EvSaveJob (j : job_info)
  | EvUpdateJob (id : string) (finished : Z).

(** The environment of one run: the reply to the [k]-th external action when
    it is a command, the wall-clock time that action takes (for a sleep: the
    time beyond the requested one), and the value [random.uniform(5, 10)]
    draws there. *)
Record env : Type := {
  reply : nat -> string -> proc_result;
  latency : nat -> Q;
  uniform_5_10 : nat -> Q
}.

Record world : Type := {
  now : Q;
  calls : nat;
  trace : list event;
  submitted_jobs : list job_info
}.

(** A computation of [main]: it leaves a world behind whether it returns or
    raises. *)
Definition M (A : Type) : Type := world -> result A * world.

Definition ret {A : Type} (a : A) : M A := fun w => (Ok a, w).

Definition bind {A B : Type} (m : M A) (k : A -> M B) : M B :=
  fun w =>
    match m w with
    | (Ok a, w') => k a w'
    | (Raise e, w') => (Raise e, w')
    end.

Definition lift {A : Type} (r : result A) : M A := fun w => (r, w).

Notation "'run' x <~ m ;; k" := (bind m (fun x => k))
  (at level 100, x name, m at level 99, k at level 100, right associativity).

Definition emit (ev : event) : M unit :=
  fun w => (Ok tt, {| now := now w; calls := calls w;
                      trace := trace w ++ [ev];
                      submitted_jobs := submitted_jobs w |}).

Definition print (m : message) : M unit := emit (EvPrint m).

(** [time.time()] and [datetime.now()] read the same clock. *)
Definition time_time : M Q := fun w => (Ok (now w), w).

(** The global [submitted_jobs.append(job_info)]. *)
Definition append_submitted (j : job_info) : M unit :=
  fun w => (Ok tt, {| now := now w; calls := calls w; trace := trace w;
                      submitted_jobs := submitted_jobs w ++ [j] |}).

Definition get_submitted : M (list job_info) := fun w => (Ok (submitted_jobs w), w).

Section Run.

Variable E : env.

(** One external action taking [base] seconds plus its latency. *)
Definition external (base : Q) (ev : event) : M nat :=
  fun w => (Ok (calls w),
               {| now := (now w + base + latency E (calls w))%Q;
                  calls := S (calls w);
                  trace := trace w ++ [ev];
                  submitted_jobs := submitted_jobs w |}).

(** [subprocess.run(cmd, shell=True, stdout=PIPE, stderr=PIPE, encoding='utf-8')] *)
Definition subprocess_run (cmd : string) : M proc_result :=
  run k <~ external 0 (EvRun cmd) ;;
  ret (reply E k cmd).

(** [time.sleep(secs)] *)
Definition time_sleep (secs : Q) : M unit :=
  run _ <~ external secs (EvSleep secs) ;;
  ret tt.

(** [random.uniform(5, 10)] *)
Definition random_uniform_5_10 : M Q :=
  fun w => (Ok (uniform_5_10 E (calls w)), w).

(** *** submit_job *)

Definition submit_cmd (node_count : Z) (queue_name script : string) : string :=
  "sbatch --parsable --nodes=" +:+ pretty node_count +:+ " -p " +:+ queue_name
    +:+ " " +:+ script.

Definition submit_job (node_count duration_min : Z) (slurm_templates : gmap Z string)
    (queue_name : string) : M (option string * option string) :=
  match slurm_templates !! duration_min with
  | None =>
      run _ <~ print (MsgTemplateMissing duration_min) ;;
      ret (None, None)
  | Some script =>
      run r <~ subprocess_run (submit_cmd node_count queue_name script) ;;
      if returncode r =? 0 then
        match py_split (py_strip (stdout r)) with
        | [] => lift (Raise IndexError)
        | id :: _ => ret (Some id, Some script)
        end
      else ret (None, Some script)
  end.

(** *** check_active_jobs and get_current_used_nodes *)

Record active_job : Type := {
  aj_jobid : string;
  aj_nodes : Z;
  aj_state : string
}.

Definition squeue_cmd : string := "squeue -u $USER -h -o '%i %D %T'".

Definition active_state (s : string) : bool :=
  bool_decide (s = "RUNNING") || bool_decide (s = "PENDING").

(** The body of [for line in result.stdout.splitlines()]. *)
Definition scan_squeue_line (jobs : list active_job) (line : string) : result (list active_job) :=
  match py_split (py_strip line) with
  | p0 :: p1 :: p2 :: _ =>
      if active_state p2 then
        do n <~ py_int p1 ;;
        Ok (jobs ++ [{| aj_jobid := p0; aj_nodes := n; aj_state := p2 |}])
      else Ok jobs
  | _ => Ok jobs
  end.

Definition parse_squeue (r : proc_result) : result (list active_job) :=
  if returncode r =? 0 then rfold scan_squeue_line (py_splitlines (stdout r)) []
  else Ok [].

Definition check_active_jobs : M (list active_job) :=
  run r <~ subprocess_run squeue_cmd ;;
  lift (parse_squeue r).

Definition count_used (jobs : list active_job) : Z :=
  fold_left (fun used job =>
               if bool_decide (aj_state job = "RUNNING") then used + aj_nodes job else used)
            jobs 0.

Definition get_current_used_nodes : M Z :=
  run jobs <~ check_active_jobs ;;
  ret (count_used jobs).

(** *** check_jobs_finished *)

Definition sacct_cmd (jobids : list string) : string :=
  "sacct -j " +:+ py_join "," jobids +:+ " --format=JobID,State --noheader".

(** The body of [for line in result.stdout.splitlines()]. *)
Definition scan_sacct_line (jobids : list string) (finished_dict : gmap string bool)
    (line : string) : gmap string bool :=
  match py_split (py_strip line) with
  | jid :: state :: _ =>
      if negb (has_dot jid) && bool_decide (jid ∈ jobids)
      then <[jid := bool_decide (state = "COMPLETED")]> finished_dict
      else finished_dict
  | _ => finished_dict
  end.

(** The body of the final [for jid in jobids]. *)
Definition default_unfinished (finished_dict : gmap string bool) (jid : string) : gmap string bool :=
  match finished_dict !! jid with
  | Some _ => finished_dict
  | None => <[jid := false]> finished_dict
  end.

Definition resolve_finished (jobids : list string) (r : proc_result) : gmap string bool :=
  let found :=
    if returncode r =? 0
    then fold_left (scan_sacct_line jobids) (py_splitlines (stdout r)) ∅
    else ∅ in
  fold_left default_unfinished jobids found.

Definition check_jobs_finished (jobids : list string) : M (gmap string bool) :=
  match jobids with
  | [] => ret ∅
  | _ =>
      run r <~ subprocess_run (sacct_cmd jobids) ;;
      ret (resolve_finished jobids r)
  end.

End Run.

(** ** main *)

(** [available_nodes = total_nodes - used_nodes] *)
Definition available_nodes (total_nodes used_nodes : Z) : Z := total_nodes - used_nodes.

Definition Qltb (x y : Q) : bool := negb (Qle_bool y x).

(** Truth value of the first component returned by [submit_job]. *)
Definition truthy (jobid : option string) : option string :=
  match jobid with
  | Some EmptyString => None
  | other => other
  end.

(** The loop variables of [main] that the admission loop updates. *)
Record locals : Type := {
  task_index : nat;
  total_jobs : Z
}.

Record metrics : Type := {
  finished_count : Z;
  finished_job_details : list job_info;
  sum_Nj_Tj : Z;
  resource_utilization : Q;
  system_throughput : Q
}.

(** [sum_Nj_Tj] after the loop over [finished_job_details]. *)
Definition node_seconds (jobs : list job_info) : Z :=
  fold_left (fun acc job => acc + job_nodes job * (job_duration job * 60)) jobs 0.

Definition compute_utilization (sum_NT N_total : Z) (T_total : Q) : Q :=
  if Qltb 0 (inject_Z N_total * T_total)
  then (inject_Z sum_NT / (inject_Z N_total * T_total) * 100)%Q
  else 0%Q.

Definition compute_throughput (m : Z) (total_test_seconds : Q) : Q :=
  let T := (total_test_seconds / 3600)%Q in
  if Qltb 0 T then (inject_Z m / T)%Q else 0%Q.

Section Main.

Variable E : env.
Variable test_hours : Q.
Variable total_nodes : Z.
Variable queue_name : string.

Definition total_test_seconds : Q := (test_hours * 60 * 60)%Q.

(** The [if jobid: ... else: ...] of the loop body. *)
Definition record_submission (loc : locals) (task_ : task) (used_nodes : Z)
    (jobid script : option string) : M locals :=
  match truthy jobid with
  | Some id =>
      run t <~ time_time ;;
      let job := {| jobid := id; job_nodes := task_nodes task_;
                    job_duration := task_duration task_;
                    submit_time := t; script_file := script |} in
      run _ <~ append_submitted job ;;
      run _ <~ emit (EvSaveJob job) ;;
      run _ <~ print (MsgSubmitted job used_nodes total_nodes) ;;
      ret {| task_index := S (task_index loc); total_jobs := total_jobs loc + 1 |}
  | None =>
      run _ <~ print (MsgSubmitFailed script) ;;
      ret loc
  end.

(** One pass through the body of the [while]. *)
Definition loop_body (slurm_templates : gmap Z string) (task_list : list task)
    (loc : locals) : M locals :=
  match task_list !! task_index loc with
  | None => lift (Raise IndexError)
  | Some task_ =>
      let node_count := task_nodes task_ in
      let duration_min := task_duration task_ in
      run used_nodes <~ get_current_used_nodes E ;;
      let available := available_nodes total_nodes used_nodes in
      if node_count <=? available then
        run r <~ submit_job E node_count duration_min slurm_templates queue_name ;;
        run loc' <~ record_submission loc task_ used_nodes (fst r) (snd r) ;;
        run _ <~ time_sleep E 1 ;;
        ret loc'
      else
        run d <~ random_uniform_5_10 E ;;
        run _ <~ time_sleep E d ;;
        ret loc
  end.

(** [time.time() < end_time and task_index < num_tasks] *)
Definition loop_guard (end_time : Q) (num_tasks : nat) (loc : locals) : M bool :=
  run t <~ time_time ;;
  ret (Qltb t end_time && (task_index loc <? num_tasks)%nat).

(** At most [fuel] passes of the [while] loop. *)
Fixpoint admission_loop (fuel : nat) (slurm_templates : gmap Z string)
    (task_list : list task) (end_time : Q) (loc : locals) : M locals :=
  match fuel with
  | O => ret loc
  | S fuel' =>
      run go <~ loop_guard end_time (length task_list) loc ;;
      if go then
        run loc' <~ loop_body slurm_templates task_list loc ;;
        admission_loop fuel' slurm_templates task_list end_time loc'
      else ret loc
  end.

(** Waiting out the window once every task is submitted. *)
Definition drain (end_time : Q) (num_tasks : nat) (loc : locals) : M unit :=
  run t <~ time_time ;;
  if (num_tasks <=? task_index loc)%nat && Qltb t end_time then
    run t' <~ time_time ;;
    let wait_seconds := (end_time - t')%Q in
    run _ <~ print (MsgAllSubmitted wait_seconds) ;;
    if Qltb 0 wait_seconds then time_sleep E wait_seconds else ret tt
  else ret tt.

(** The loop that resolves every submitted job. *)
Fixpoint collect_finished (finished_dict : gmap string bool) (jobs : list job_info)
    (cnt : Z) (details : list job_info) : M (Z * list job_info) :=
  match jobs with
  | [] => ret (cnt, details)
  | job :: jobs' =>
      let finished := default false (finished_dict !! jobid job) in
      run _ <~ emit (EvUpdateJob (jobid job) (if finished then 1 else 0)) ;;
      if finished then collect_finished finished_dict jobs' (cnt + 1) (details ++ [job])
      else collect_finished finished_dict jobs' cnt details
  end.

Definition compute_metrics (cnt : Z) (details : list job_info) : metrics :=
  let s := node_seconds details in
  {| finished_count := cnt;
     finished_job_details := details;
     sum_Nj_Tj := s;
     resource_utilization := compute_utilization s total_nodes total_test_seconds;
     system_throughput := compute_throughput cnt total_test_seconds |}.

(** [main] once the configuration is loaded, up to the metrics it prints
    (lines 293 to 405).  The call of [generate_pdf_report] that follows is
    not part of the definition, and it can raise (it does when no job
    completed): [Ok m] says that the run reached the metrics [m], not that
    the process ended without an exception.
    [fuel] bounds the number of passes of the [while] loop; when no external
    action takes negative time and a backoff lasts at least a second, any
    bound above the window length in seconds gives the same run
    ([admission_loop_enough_fuel]). *)
Definition main (fuel : nat) (rnd : nat -> nat) (job_defs : list job_def) : M metrics :=
  let slurm_templates := get_duration_template_map job_defs in
  run start_time <~ time_time ;;
  let end_time := (start_time + total_test_seconds)%Q in
  run task_list <~ lift (generate_task_list rnd job_defs) ;;
  run loc <~ admission_loop fuel slurm_templates task_list end_time
               {| task_index := 0; total_jobs := 0 |} ;;
  run _ <~ drain end_time (length task_list) loc ;;
  run jobs <~ get_submitted ;;
  run finished_dict <~ check_jobs_finished E (map jobid jobs) ;;
  run res <~ collect_finished finished_dict jobs 0 [] ;;
  ret (compute_metrics (fst res) (snd res)).

End Main.

(** Lines 364 to 399 of [main], the last four actions of the definition
    above: the completion query for the submitted jobs, the resolution loop
    and the metrics. *)
Definition resolve_and_measure (E : env) (test_hours : Q) (total_nodes : Z) : M metrics :=
  run jobs <~ get_submitted ;;
  run finished_dict <~ check_jobs_finished E (map jobid jobs) ;;
  run res <~ collect_finished finished_dict jobs 0 [] ;;
  ret (compute_metrics test_hours total_nodes (fst res) (snd res)).

(** ** The metrics as the specification words them *)

(** Sum over the completed jobs of [nodes * duration_minutes * 60]. *)
Fixpoint spec_node_seconds (jobs : list job_info) : Z :=
  match jobs with
  | [] => 0
  | j :: jobs' => job_nodes j * job_duration j * 60 + spec_node_seconds jobs'
  end.

(** [M / T], and 0 when [T] is not positive. *)
Definition spec_throughput (m : Z) (T_hours : Q) : Q :=
  if Qltb 0 T_hours then (inject_Z m / T_hours)%Q else 0%Q.

(** [100 * sum / (total_nodes * window_seconds)], and 0 when the capacity is
    not positive. *)
Definition spec_utilization (jobs : list job_info) (total_nodes : Z) (window_seconds : Q) : Q :=
  let capacity_node_seconds := (inject_Z total_nodes * window_seconds)%Q in
  if Qltb 0 capacity_node_seconds
  then (100 * inject_Z (spec_node_seconds jobs) / capacity_node_seconds)%Q
  else 0%Q.

(** ** The used-slot count as the specification words it *)

(** The slots held by the jobs observed in the RUNNING state. *)
Definition running_nodes (jobs : list active_job) : Z :=
  sum_Z (map aj_nodes (filter (fun j => aj_state j = "RUNNING") jobs)).

(** The first three fields of a line of the squeue reply: job id, node
    count, state. *)
Definition squeue_fields (ln : string) : option (string * string * string) :=
  match py_split (py_strip ln) with
  | id :: nodes_field :: state :: _ => Some (id, nodes_field, state)
  | _ => None
  end.

(** The slots that one line of the reply shows as held by a running job:
    the node count of a line whose state is RUNNING, nothing for a line in
    any other state or with fewer than three fields. *)
Definition running_slots (ln : string) : Z :=
  match squeue_fields ln with
  | Some (_, nodes_field, state) =>
      if bool_decide (state = "RUNNING") then
        match py_int nodes_field with
        | Ok n => n
        | Raise _ => 0
        end
      else 0
  | None => 0
  end.

(** A line that the query can read: when its state is RUNNING or PENDING,
    its node count is an integer literal. *)
Definition line_readable (ln : string) : bool :=
  match squeue_fields ln with
  | Some (_, nodes_field, state) =>
      if bool_decide (state = "RUNNING") || bool_decide (state = "PENDING") then
        match py_int nodes_field with
        | Ok _ => true
        | Raise _ => false
        end
      else true
  | None => true
  end.

(** A handle is absent from the accounting response when the query failed or
    no line of the response starts with it. *)
Definition absent_from (r : proc_result) (jid : string) : Prop :=
  returncode r <> 0
  \/ Forall (fun line => head (py_split (py_strip line)) <> Some jid)
            (py_splitlines (stdout r)).

(** The world that an external action leaves. *)
Definition after (E : env) (base : Q) (ev : event) (w : world) : world :=
  snd (external E base ev w).

(** ** Concrete inputs *)

Definition mk_dur (m : Z) (r : Q) : duration_def := {| minutes := m; ratio := r |}.

(** Two instances over four variants with ratios 1 : 10 : 10 : 10. *)
Definition overshoot_mix : list job_def :=
  [ {| nodes := 1; count := 2;
       durations := [mk_dur 5 1; mk_dur 10 10; mk_dur 15 10; mk_dur 20 10] |} ].

(** Four instances of a single variant whose ratio is 0. *)
Definition zero_ratio_entry : job_def :=
  {| nodes := 1; count := 4; durations := [mk_dur 5 0] |}.

(** One four-node task of five minutes. *)
Definition one_task_mix : list job_def :=
  [ {| nodes := 4; count := 1; durations := [mk_dur 5 1] |} ].

Definition four_node_task : task := {| task_nodes := 4; task_duration := 5 |}.

Definition fresh_world : world :=
  {| now := 0; calls := 0; trace := []; submitted_jobs := [] |}.

Definition first_task : locals := {| task_index := 0; total_jobs := 0 |}.

Definition line (s : string) : string := s +:+ String "010" EmptyString.

Definition exited (rc : Z) (out : string) : proc_result :=
  {| returncode := rc; stdout := out |}.

(** A cluster whose four nodes are held by a foreign job until the external
    action 720, on which squeue and sbatch take one second each; the backoff
    draws are 9 seconds, and 8 seconds before the last pass. *)
Definition env_late : env :=
  {| reply := fun k cmd =>
       if String.prefix "squeue" cmd then
         if (k <? 720)%nat then exited 0 (line "900 4 RUNNING") else exited 0 ""
       else if String.prefix "sbatch" cmd then exited 0 (line "101")
       else exited 0 (line "101 COMPLETED");
     latency := fun k =>
       if (Nat.even k && (k <=? 720)%nat) || (k =? 721)%nat then 1%Q else 0%Q;
     uniform_5_10 := fun k => if (k =? 719)%nat then 8%Q else 9%Q |}.

(** A cluster on which squeue shows a six-node job running. *)
Definition env_drift : env :=
  {| reply := fun _ _ => exited 0 (line "900 6 RUNNING");
     latency := fun _ => 0%Q;
     uniform_5_10 := fun _ => 5%Q |}.

(** An idle cluster whose sbatch exits with status 1. *)
Definition env_reject : env :=
  {| reply := fun _ cmd =>
       if String.prefix "sbatch" cmd then exited 1 "" else exited 0 "";
     latency := fun _ => 0%Q;
     uniform_5_10 := fun _ => 5%Q |}.

Definition mk_job (id : string) (n d : Z) : job_info :=
  {| jobid := id; job_nodes := n; job_duration := d; submit_time := 0;
     script_file := Some (template_name d) |}.

(** Four completed jobs on 1, 2, 1 and 2 nodes, ten minutes each. *)
Definition scenario_jobs : list job_info :=
  [mk_job "1" 1 10; mk_job "2" 2 10; mk_job "3" 1 10; mk_job "4" 2 10].

(** ** Entries on which generate_task_list returns *)

(** An entry without duration variants must ask for no instance (the
    correction loop takes an index modulo the number of variants); an entry
    with variants must have a total ratio other than 0. *)
Definition entry_returns (jd : job_def) : bool :=
  match durations jd with
  | [] => count jd =? 0
  | _ => negb (Qeq_bool (sum_Q (map ratio (durations jd))) 0)
  end.

(** An entry as a configuration normally has it: a count and ratios that
    are not negative, and a ratio that is not 0. *)
Definition plain_entry (jd : job_def) : Prop :=
  0 <= count jd
  /\ Forall (fun d => 0 <= ratio d)%Q (durations jd)
  /\ (0 < sum_Q (map ratio (durations jd)))%Q.

(** ** Entries on which binary64 and exact arithmetic agree *)

(** A ratio that is a whole number, with a product [count * ratio] below
    [2 ^ 52] in size. *)
Definition exact_ratio (cnt : Z) (d : duration_def) : bool :=
  Pos.eqb (Qden (ratio d)) 1 && (Z.abs (cnt * Qnum (ratio d)) <? 2 ^ 52).

(** An entry whose count is below [2 ^ 52] in size, whose ratios are whole
    numbers, and whose products [count * ratio] and sum of ratio sizes stay
    below [2 ^ 52].  On such an entry the source computes [count * ratio] and
    [total_ratio] without rounding, whether the ratios are read as [int] or
    as [float], and the binary64 quotient of the two rounds to the same
    integer as the exact quotient ([round_stable]). *)
Definition exact_entry (jd : job_def) : bool :=
  (Z.abs (count jd) <? 2 ^ 52)
  && forallb (exact_ratio (count jd)) (durations jd)
  && (sum_Z (map (fun d => Z.abs (Qnum (ratio d))) (durations jd)) <? 2 ^ 52).

(** ** write_slurm_templates *)

(** The minutes of every duration variant of the job mix, in order. *)
Definition all_minutes (job_defs : list job_def) : list Z :=
  flat_map (fun jd => map minutes (durations jd)) job_defs.

(** The text written to a template file. *)
Definition slurm_script (seconds : Z) : string :=
  line "#!/bin/bash" +:+ line "#SBATCH --exclusive" +:+ line "#SBATCH --output=%j.out"
    +:+ line "" +:+ line ("sleep " +:+ pretty seconds).

(** The body of [for duration, filename in slurm_templates.items()], on a
    file system that maps the paths that exist to their content and accepts
    every write. *)
Definition write_template (fs : gmap string string) (item : Z * string) : gmap string string :=
  match fs !! snd item with
  | Some _ => fs
  | None => <[snd item := slurm_script (fst item * 60)]> fs
  end.

(** [write_slurm_templates], given [slurm_templates.items()]. *)
Definition write_slurm_templates (items : list (Z * string)) (fs : gmap string string) :
    gmap string string :=
  fold_left write_template items fs.

(** The items of the dict that [get_duration_template_map] builds, in the
    order of insertion. *)
Definition add_template_item (items : list (Z * string)) (d : duration_def) : list (Z * string) :=
  if bool_decide (minutes d ∈ items.*1) then items
  else items ++ [(minutes d, template_name (minutes d))].

Definition template_items (job_defs : list job_def) : list (Z * string) :=
  fold_left (fun items jd => fold_left add_template_item (durations jd) items) job_defs [].

(** Every item pairs a duration with the script named after it. *)
Definition named_by_duration (items : list (Z * string)) : Prop :=
  forall m f, (m, f) ∈ items -> f = template_name m.

(** ** Predicates used in the statements *)

(** Some character of [s] is white space. *)
Fixpoint has_space (s : string) : bool :=
  match s with
  | EmptyString => false
  | String c s' => is_py_space c || has_space s'
  end.

(** The task that a record of [submitted_jobs] was made from. *)
Definition job_task (j : job_info) : task :=
  {| task_nodes := job_nodes j; task_duration := job_duration j |}.

(** The first two fields of an accounting line that has at least two. *)
Definition sacct_fields (ln : string) : option (string * string) :=
  match py_split (py_strip ln) with
  | jid :: state :: _ => Some (jid, state)
  | _ => None
  end.

(** The submitted jobs that a completion mapping marks as completed. *)
Definition completed_jobs (finished_dict : gmap string bool) (jobs : list job_info) :
    list job_info :=
  filter (fun j => finished_dict !! jobid j = Some true) jobs.

(** The database update that the resolution loop issues for a job. *)
Definition update_event (finished_dict : gmap string bool) (j : job_info) : event :=
  EvUpdateJob (jobid j) (if default false (finished_dict !! jobid j) then 1 else 0).

(** ** load_config *)

#[local] Set Warnings "-register-all".

(** What [json.load] returns. *)
Inductive json : Type :=
  | JNull
  | JBool (b : bool)
  | JNum (q : Q)
  | JStr (s : string)
  | JArr (items : list json)
  | JObj (fields : list (string * json)).

(** How [load_config] ends: with its four values, or in [sys.exit(1)]. *)
Inductive loaded : Type :=
  | Loaded (test_hours total_nodes : json) (queue_name : string) (job_defs : json)
  | SysExit (code : Z).

(** [load_config], given the object that [json.load] read from the file. *)
Definition load_config (cfg : gmap string json) : loaded :=
  let test_hours := default (JNum (9 # 2)) (cfg !! "total_test_hours") in
  let total_nodes := default (JNum 64) (cfg !! "total_nodes") in
  let queue_name := default (JStr "kshcnormal") (cfg !! "queue_name") in
  let job_defs := default (JArr []) (cfg !! "jobs") in
  match queue_name with
  | JStr s =>
      if decide (py_strip s = EmptyString) then SysExit 1
      else Loaded test_hours total_nodes s job_defs
  | _ => SysExit 1
  end.

(** Some character of [s] is not white space. *)
Fixpoint has_nonspace (s : string) : bool :=
  match s with
  | EmptyString => false
  | String c s' => negb (is_py_space c) || has_nonspace s'
  end.

(** Every character of [s] is an ASCII character. *)
Fixpoint ascii_only (s : string) : bool :=
  match s with
  | EmptyString => true
  | String c s' => (nat_of_ascii c <? 128)%nat && ascii_only s'
  end.

(** A queue name given as a string is an ASCII text. *)
Definition queue_name_ascii (cfg : gmap string json) : bool :=
  match cfg !! "queue_name" with
  | Some (JStr s) => ascii_only s
  | _ => true
  end.

(** ** More concrete inputs *)

(** An idle cluster that accepts every job as number 101 and reports it as
    completed. *)
Definition env_idle : env :=
  {| reply := fun _ cmd =>
       if String.prefix "squeue" cmd then exited 0 ""
       else if String.prefix "sbatch" cmd then exited 0 (line "101")
       else exited 0 (line "101 COMPLETED");
     latency := fun _ => 0%Q;
     uniform_5_10 := fun _ => 5%Q |}.

(** The same cluster with an accounting command that fails. *)
Definition env_no_accounting : env :=
  {| reply := fun _ cmd =>
       if String.prefix "squeue" cmd then exited 0 ""
       else if String.prefix "sbatch" cmd then exited 0 (line "101")
       else exited 1 "";
     latency := fun _ => 0%Q;
     uniform_5_10 := fun _ => 5%Q |}.

(** The world of a run that has submitted one four-node job of five
    minutes. *)
Definition after_one_submission : world :=
  {| now := 60; calls := 3; trace := []; submitted_jobs := [mk_job "101" 4 5] |}.

(** A configuration that names the queue [debug]. *)
Definition debug_queue : gmap string json := {[ "queue_name" := JStr "debug" ]}.

(** Three instances over two variants of equal ratio. *)
Definition even_entry : job_def :=
  {| nodes := 2; count := 3; durations := [mk_dur 5 1; mk_dur 10 1] |}.

(** The record that the loop body makes of a submitted task. *)
Definition recorded_job (id : string) (t : task) (instant : Q) (script : option string) :
    job_info :=
  {| jobid := id; job_nodes := task_nodes t; job_duration := task_duration t;
     submit_time := instant; script_file := script |}.

(** * Properties *)

(** ** The error monad *)

Lemma rbind_Ok {A B : Type} (r : result A) (k : A -> result B) (b : B) :
  rbind r k = Ok b -> exists a, r = Ok a /\ k a = Ok b.
Proof. destruct r as [a|e]; simpl; [eauto | discriminate]. Qed.

Lemma rfold_app {A B : Type} (f : A -> B -> result A) (l1 l2 : list B) (a : A) :
  rfold f (l1 ++ l2) a = rbind (rfold f l1 a) (rfold f l2).
Proof.
  revert a. induction l1 as [|b l1 IH]; intros a; simpl; [done|].
  destruct (f a b) as [a'|e]; simpl; [apply IH | done].
Qed.

(** ** random.shuffle only reorders *)

Lemma swap_Permutation {A : Type} (i j : nat) (x : list A) : swap i j x ≡ₚ x.
Proof.
  unfold swap.
  destruct (x !! i) as [a|] eqn:Hi; [|done].
  destruct (x !! j) as [b|] eqn:Hj; [|done].
  by apply Permutation_insert_swap.
Qed.

Lemma shuffle_from_Permutation {A : Type} (rnd : nat -> nat) (i k : nat) (x : list A) :
  shuffle_from rnd k i x ≡ₚ x.
Proof.
  revert k x. induction i as [|i IH]; intros k x; simpl; [done|].
  rewrite IH. apply swap_Permutation.
Qed.

Lemma shuffle_Permutation {A : Type} (rnd : nat -> nat) (x : list A) :
  shuffle rnd x ≡ₚ x.
Proof. apply shuffle_from_Permutation. Qed.

Lemma shuffle_length {A : Type} (rnd : nat -> nat) (x : list A) :
  length (shuffle rnd x) = length x.
Proof. apply Permutation_length, shuffle_Permutation. Qed.

(** ** generate_task_list: the count adjustment *)

Example overshoot_rounded :
  rounded_counts 2 [mk_dur 5 1; mk_dur 10 10; mk_dur 15 10; mk_dur 20 10] = Ok [0; 1; 1; 1].
Proof. reflexivity. Qed.

Example overshoot_adjusted : adjust_counts 2 [0; 1; 1; 1] = Ok [0; 1; 1; 1].
Proof. reflexivity. Qed.

(** C1, at the input [overshoot_mix]: the rounded counts are 0, 1, 1, 1, one
    more than the configured 2; the single correction pass lands on the
    variant whose count is 0 and is skipped, so the list returned has three
    tasks whatever the shuffle draws. *)
Theorem generate_task_list_overshoot (rnd : nat -> nat) :
  exists ts, generate_task_list rnd overshoot_mix = Ok ts
             /\ length ts = 3%nat
             /\ sum_Z (map count overshoot_mix) = 2.
Proof.
  eexists. split; [reflexivity|]. split; [|reflexivity].
  rewrite shuffle_length. reflexivity.
Qed.

(** ** generate_task_list: what it can raise *)

Lemma rfold_Raise {A B : Type} (f : A -> B -> result A) (P : exn -> Prop) :
  (forall a b e, f a b = Raise e -> P e) ->
  forall l a e, rfold f l a = Raise e -> P e.
Proof.
  intros Hf l. induction l as [|b l IH]; intros a e; simpl; [discriminate|].
  destruct (f a b) as [a'|e'] eqn:Hfa; simpl.
  - apply IH.
  - intros [= <-]. eauto.
Qed.

Lemma rmap_Raise {A B : Type} (f : A -> result B) (P : exn -> Prop) :
  (forall a e, f a = Raise e -> P e) ->
  forall l e, rmap f l = Raise e -> P e.
Proof.
  intros Hf l. induction l as [|a l IH]; intros e; simpl; [discriminate|].
  destruct (f a) as [b|e'] eqn:Hfa; simpl.
  - destruct (rmap f l) as [bs|e''] eqn:Hl; simpl; [discriminate|].
    intros [= <-]. eauto.
  - intros [= <-]. eauto.
Qed.

Lemma rounded_counts_Raise (cnt : Z) (ds : list duration_def) (e : exn) :
  rounded_counts cnt ds = Raise e -> e = ZeroDivisionError.
Proof.
  unfold rounded_counts. intros H.
  eapply (rmap_Raise _ (fun e => e = ZeroDivisionError)); [|exact H].
  intros d e'. unfold py_div.
  destruct (Qeq_bool _ 0); simpl; [congruence | discriminate].
Qed.

Lemma adjust_step_Raise (diff : Z) (curr : list Z) (i : nat) (e : exn) :
  adjust_step diff curr i = Raise e -> e = ZeroDivisionError.
Proof.
  unfold adjust_step. destruct (length curr) as [|n] eqn:Hn; [congruence|].
  destruct (lookup_lt_is_Some_2 curr (i mod S n)) as [c Hc].
  { rewrite Hn. apply Nat.mod_upper_bound. lia. }
  rewrite Hc. repeat case_match; discriminate.
Qed.

Lemma entry_tasks_Raise (jd : job_def) (e : exn) :
  entry_tasks jd = Raise e -> e = ZeroDivisionError.
Proof.
  unfold entry_tasks.
  destruct (rounded_counts _ _) as [curr|e1] eqn:H1; simpl.
  - destruct (adjust_counts _ curr) as [curr'|e2] eqn:H2; simpl; [discriminate|].
    intros [= <-]. unfold adjust_counts in H2.
    eapply (rfold_Raise _ (fun e => e = ZeroDivisionError)); [|exact H2].
    intros a b e'. apply adjust_step_Raise.
  - intros [= <-]. eapply rounded_counts_Raise, H1.
Qed.

Lemma unshuffled_step_Raise (data : list task) (jd : job_def) (e : exn) :
  (do ts <~ entry_tasks jd ;; Ok (data ++ ts)) = Raise e -> e = ZeroDivisionError.
Proof.
  destruct (entry_tasks jd) as [ts|e'] eqn:H; simpl; [discriminate|].
  intros [= <-]. eapply entry_tasks_Raise, H.
Qed.

Lemma sum_Q_from_zero (xs : list Q) (a : Q) :
  Forall (fun x => x == 0)%Q xs -> (fold_left Qplus xs a == a)%Q.
Proof.
  intros H. revert a. induction H as [|x xs Hx _ IH]; intros a; simpl; [reflexivity|].
  rewrite IH, Hx. ring.
Qed.

Lemma rounded_counts_zero_total (cnt : Z) (ds : list duration_def) :
  ds <> [] -> Forall (fun d => ratio d == 0)%Q ds ->
  rounded_counts cnt ds = Raise ZeroDivisionError.
Proof.
  intros Hne Hz. destruct ds as [|d ds]; [done|].
  unfold rounded_counts.
  assert (Ht : (sum_Q (map ratio (d :: ds)) == 0)%Q).
  { apply sum_Q_from_zero. by apply Forall_fmap. }
  apply Qeq_eq_bool in Ht.
  generalize dependent (sum_Q (map ratio (d :: ds))). intros total Ht.
  simpl. unfold py_div. by rewrite Ht.
Qed.

(** C2, evaluated on the code: an entry with at least one duration variant
    and all ratios 0 makes [generate_task_list] raise [ZeroDivisionError],
    wherever the entry stands in the job mix and whatever its count. *)
Theorem generate_task_list_zero_ratios (rnd : nat -> nat)
    (before after : list job_def) (jd : job_def) :
  durations jd <> [] ->
  Forall (fun d => ratio d == 0)%Q (durations jd) ->
  generate_task_list rnd (before ++ jd :: after) = Raise ZeroDivisionError.
Proof.
  intros Hne Hz. unfold generate_task_list, unshuffled_tasks.
  rewrite rfold_app.
  destruct (rfold _ before []) as [data|e] eqn:Hb; simpl.
  - unfold entry_tasks. by rewrite rounded_counts_zero_total.
  - assert (e = ZeroDivisionError) as ->; [|done].
    eapply (rfold_Raise _ (fun e => e = ZeroDivisionError)); [|exact Hb].
    intros a b e'. apply unshuffled_step_Raise.
Qed.

Lemma sum_Z_from (xs : list Z) (a : Z) : fold_left Z.add xs a = a + sum_Z xs.
Proof.
  unfold sum_Z. revert a. induction xs as [|x xs IH]; intros a; simpl; [lia|].
  rewrite (IH (a + x)), (IH (0 + x)). lia.
Qed.

(** ** generate_task_list: when the count is conserved *)

Lemma sum_Z_cons (x : Z) (xs : list Z) : sum_Z (x :: xs) = x + sum_Z xs.
Proof. unfold sum_Z at 1. simpl. apply sum_Z_from. Qed.

Lemma sum_Z_insert (l : list Z) (i : nat) (c d : Z) :
  l !! i = Some c -> sum_Z (<[i := d]> l) = sum_Z l - c + d.
Proof.
  revert i. induction l as [|x l IH]; intros [|i] Hi; simplify_eq/=.
  - rewrite !sum_Z_cons. lia.
  - rewrite !sum_Z_cons, (IH i) by done. lia.
Qed.

Lemma rmap_length {A B : Type} (f : A -> result B) (l : list A) (bs : list B) :
  rmap f l = Ok bs -> length bs = length l.
Proof.
  revert bs. induction l as [|a l IH]; intros bs; simpl.
  - by intros [= <-].
  - destruct (f a) as [b|]; simpl; [|discriminate].
    destruct (rmap f l) as [bs'|]; simpl; [|discriminate].
    intros [= <-]. simpl. by rewrite (IH bs').
Qed.

(** With a positive [diff], each pass of the correction loop adds one. *)
Lemma adjust_up (diff : Z) (n start : nat) (curr : list Z) :
  0 < diff -> curr <> [] -> Forall (fun c => 0 <= c) curr ->
  exists curr',
    rfold (adjust_step diff) (seq start n) curr = Ok curr'
    /\ length curr' = length curr
    /\ Forall (fun c => 0 <= c) curr'
    /\ sum_Z curr' = sum_Z curr + Z.of_nat n.
Proof.
  intros Hdiff. revert start curr.
  induction n as [|n IH]; intros start curr Hne Hpos; simpl.
  - exists curr. split_and!; [done..|lia].
  - unfold adjust_step at 1.
    destruct (length curr) as [|m] eqn:Hlen; [by destruct curr|].
    destruct (lookup_lt_is_Some_2 curr (start mod S m)) as [c Hc].
    { rewrite Hlen. apply Nat.mod_upper_bound. lia. }
    rewrite Hc. apply Z.ltb_lt in Hdiff as Hd. rewrite Hd. simpl.
    destruct (IH (S start) (<[(start mod S m)%nat := c + 1]> curr)) as (curr' & Hr & Hl & Hp & Hs).
    + intros Hnil. apply (f_equal length) in Hnil.
      rewrite length_insert, Hlen in Hnil. discriminate.
    + apply Forall_insert; [done|].
      rewrite Forall_lookup in Hpos. specialize (Hpos _ _ Hc). simpl in Hpos. lia.
    + exists curr'. split_and!; [done| | done |].
      * by rewrite Hl, length_insert.
      * rewrite Hs, (sum_Z_insert _ _ c) by done. lia.
Qed.

Lemma materialize_length (node : Z) (ds : list duration_def) (counts : list Z) :
  length ds = length counts -> Forall (fun c => 0 <= c) counts ->
  Z.of_nat (length (materialize node ds counts)) = sum_Z counts.
Proof.
  unfold materialize. revert counts.
  induction ds as [|d ds IH]; intros [|c counts] Hlen Hpos; simplify_eq/=; [done|].
  apply Forall_cons in Hpos as [Hc Hpos].
  rewrite length_app, length_replicate, Nat2Z.inj_add, IH, sum_Z_cons by done. lia.
Qed.

(** An entry whose rounded counts are non-negative and do not exceed its
    count contributes exactly [count] tasks. *)
Lemma entry_tasks_without_overshoot (jd : job_def) (curr : list Z) :
  rounded_counts (count jd) (durations jd) = Ok curr ->
  durations jd <> [] ->
  Forall (fun c => 0 <= c) curr ->
  sum_Z curr <= count jd ->
  exists ts, entry_tasks jd = Ok ts /\ Z.of_nat (length ts) = count jd.
Proof.
  intros Hr Hne Hpos Hsum. unfold entry_tasks. rewrite Hr. simpl.
  pose proof (rmap_length _ _ _ Hr) as Hlen.
  unfold adjust_counts.
  destruct (decide (count jd - sum_Z curr = 0)) as [Hz|Hnz].
  - rewrite Hz. simpl. eexists. split; [done|].
    rewrite materialize_length by done. lia.
  - destruct (adjust_up (count jd - sum_Z curr)
                (Z.to_nat (Z.abs (count jd - sum_Z curr))) 0 curr)
      as (curr' & Hfold & Hl & Hp & Hs); [lia| |done|].
    { intros ->. destruct (durations jd); [done | discriminate]. }
    rewrite Hfold. simpl. eexists. split; [done|].
    rewrite materialize_length by (done || lia). lia.
Qed.

(** ** Templates cover the generated durations *)

Lemma add_template_keeps (templates : gmap Z string) (d : duration_def) (k : Z) :
  is_Some (templates !! k) -> is_Some (add_template templates d !! k).
Proof.
  intros Hk. unfold add_template.
  destruct (templates !! minutes d) eqn:Hd; [done|].
  destruct (decide (minutes d = k)) as [->|Hne].
  - rewrite lookup_insert_eq. eauto.
  - by rewrite lookup_insert_ne.
Qed.

Lemma add_template_adds (templates : gmap Z string) (d : duration_def) :
  is_Some (add_template templates d !! minutes d).
Proof.
  unfold add_template.
  destruct (templates !! minutes d) eqn:Hd; [by rewrite Hd|].
  rewrite lookup_insert_eq. eauto.
Qed.

Lemma add_templates_keep (ds : list duration_def) (templates : gmap Z string) (k : Z) :
  is_Some (templates !! k) -> is_Some (fold_left add_template ds templates !! k).
Proof.
  revert templates. induction ds as [|d ds IH]; intros templates Hk; simpl; [done|].
  by apply IH, add_template_keeps.
Qed.

Lemma add_templates_add (ds : list duration_def) (templates : gmap Z string) (d : duration_def) :
  d ∈ ds -> is_Some (fold_left add_template ds templates !! minutes d).
Proof.
  revert templates. induction ds as [|d' ds IH]; intros templates Hd; simpl.
  - by apply elem_of_nil in Hd.
  - apply elem_of_cons in Hd as [->|Hd].
    + apply add_templates_keep, add_template_adds.
    + by apply IH.
Qed.

Lemma template_map_keeps (job_defs : list job_def) (templates : gmap Z string) (k : Z) :
  is_Some (templates !! k) ->
  is_Some (fold_left (fun t jd => fold_left add_template (durations jd) t)
                     job_defs templates !! k).
Proof.
  revert templates. induction job_defs as [|jd jds IH]; intros templates Hk; simpl; [done|].
  by apply IH, add_templates_keep.
Qed.

Lemma template_map_covers (job_defs : list job_def) (jd : job_def) (d : duration_def) :
  jd ∈ job_defs -> d ∈ durations jd ->
  is_Some (get_duration_template_map job_defs !! minutes d).
Proof.
  unfold get_duration_template_map. generalize (∅ : gmap Z string).
  induction job_defs as [|jd' jds IH]; intros templates Hjd Hd; simpl.
  - by apply elem_of_nil in Hjd.
  - apply elem_of_cons in Hjd as [->|Hjd].
    + by apply template_map_keeps, add_templates_add.
    + by apply IH.
Qed.

Lemma materialize_duration (node : Z) (ds : list duration_def) (counts : list Z) (t : task) :
  t ∈ materialize node ds counts ->
  exists d, d ∈ ds /\ task_duration t = minutes d /\ task_nodes t = node.
Proof.
  unfold materialize. rewrite list_elem_of_In, in_flat_map.
  intros ([d c] & Hin & Ht). simpl in Ht.
  apply list_elem_of_In, elem_of_replicate in Ht as [-> _].
  apply list_elem_of_In, elem_of_zip_l in Hin. simpl in Hin. eauto.
Qed.

Lemma unshuffled_duration (job_defs : list job_def) (acc ts : list task) (t : task) :
  rfold (fun data jd => do ts <~ entry_tasks jd ;; Ok (data ++ ts)) job_defs acc = Ok ts ->
  t ∈ ts ->
  t ∈ acc \/ exists jd d, jd ∈ job_defs /\ d ∈ durations jd
                          /\ task_duration t = minutes d /\ task_nodes t = nodes jd.
Proof.
  revert acc. induction job_defs as [|jd jds IH]; intros acc; simpl.
  - intros [= ->] Ht. by left.
  - destruct (entry_tasks jd) as [new|e] eqn:Hjd; simpl; [|discriminate].
    intros Hfold Ht. destruct (IH _ Hfold Ht) as [Hacc | (jd' & d & Hin & Hd & Hm & Hn)].
    + apply elem_of_app in Hacc as [Hacc|Hnew]; [by left|]. right.
      unfold entry_tasks in Hjd.
      apply rbind_Ok in Hjd as (curr & _ & Hjd).
      apply rbind_Ok in Hjd as (curr' & _ & [= <-]).
      apply materialize_duration in Hnew as (d & Hd & Hm & Hn).
      exists jd, d. split_and!; [left | done..].
    + right. exists jd', d. split_and!; [by right | done..].
Qed.

Lemma generated_task_origin (rnd : nat -> nat) (job_defs : list job_def)
    (tasks : list task) (t : task) :
  generate_task_list rnd job_defs = Ok tasks -> t ∈ tasks ->
  exists jd d, jd ∈ job_defs /\ d ∈ durations jd
               /\ task_duration t = minutes d /\ task_nodes t = nodes jd.
Proof.
  unfold generate_task_list. intros Hgen Ht.
  apply rbind_Ok in Hgen as (data & Hdata & [= <-]).
  rewrite shuffle_Permutation in Ht.
  destruct (unshuffled_duration _ _ _ _ Hdata Ht) as [Hnil|H]; [|done].
  by apply elem_of_nil in Hnil.
Qed.

(** C10: every task that [generate_task_list] returns has its duration among
    the keys of the template map built from the same job mix, so [submit_job]
    finds the script and returns it: the pair without script reference of
    the "template not found" branch is never its result. *)
Theorem generated_duration_has_template (rnd : nat -> nat) (job_defs : list job_def)
    (tasks : list task) (t : task) :
  generate_task_list rnd job_defs = Ok tasks ->
  t ∈ tasks ->
  exists script,
    get_duration_template_map job_defs !! task_duration t = Some script
    /\ forall E queue_name w,
         trace (snd (submit_job E (task_nodes t) (task_duration t)
                       (get_duration_template_map job_defs) queue_name w))
           = trace w ++ [EvRun (submit_cmd (task_nodes t) queue_name script)]
         /\ fst (submit_job E (task_nodes t) (task_duration t)
                   (get_duration_template_map job_defs) queue_name w) <> Ok (None, None).
Proof.
  intros Hgen Ht.
  destruct (generated_task_origin _ _ _ _ Hgen Ht) as (jd & d & Hjd & Hd & Hm & _).
  destruct (template_map_covers job_defs jd d Hjd Hd) as [script Hs].
  rewrite <- Hm in Hs. exists script. split; [done|].
  intros E queue_name w. unfold submit_job. rewrite Hs.
  unfold bind, subprocess_run, bind, external, ret. simpl.
  destruct (returncode _ =? 0); simpl; [|split; [done | discriminate]].
  destruct (py_split _); simpl; split; (done || discriminate).
Qed.

(** ** Metrics *)

Lemma Qltb_lt (x y : Q) : Qltb x y = true <-> (x < y)%Q.
Proof.
  unfold Qltb. rewrite negb_true_iff, <- not_true_iff_false, Qle_bool_iff.
  split; [apply Qnot_le_lt | apply Qlt_not_le].
Qed.

Lemma Qltb_compat (x x' y y' : Q) :
  (x == x')%Q -> (y == y')%Q -> Qltb x y = Qltb x' y'.
Proof.
  intros Hx Hy. apply eq_true_iff_eq. rewrite !Qltb_lt, Hx, Hy. reflexivity.
Qed.

Lemma node_seconds_from (jobs : list job_info) (acc : Z) :
  fold_left (fun a job => a + job_nodes job * (job_duration job * 60)) jobs acc
  = acc + spec_node_seconds jobs.
Proof.
  revert acc. induction jobs as [|j jobs IH]; intros acc; simpl; [lia|].
  rewrite IH. lia.
Qed.

Lemma node_seconds_spec (jobs : list job_info) : node_seconds jobs = spec_node_seconds jobs.
Proof. unfold node_seconds. rewrite node_seconds_from. lia. Qed.

Lemma compute_throughput_spec (m : Z) (test_hours : Q) :
  (compute_throughput m (total_test_seconds test_hours) == spec_throughput m test_hours)%Q.
Proof.
  unfold compute_throughput, spec_throughput, total_test_seconds.
  assert (HT : (test_hours * 60 * 60 / 3600 == test_hours)%Q) by (field; discriminate).
  rewrite (Qltb_compat 0 0 _ test_hours) by (reflexivity || exact HT).
  destruct (Qltb 0 test_hours); [|reflexivity].
  by rewrite HT.
Qed.

Lemma compute_utilization_spec (jobs : list job_info) (total_nodes : Z) (test_hours : Q) :
  (compute_utilization (node_seconds jobs) total_nodes (total_test_seconds test_hours)
   == spec_utilization jobs total_nodes (test_hours * 3600))%Q.
Proof.
  unfold compute_utilization, spec_utilization, total_test_seconds.
  rewrite node_seconds_spec.
  assert (HD : (inject_Z total_nodes * (test_hours * 60 * 60)
                == inject_Z total_nodes * (test_hours * 3600))%Q) by ring.
  rewrite (Qltb_compat 0 0 _ _ (Qeq_refl 0) HD).
  destruct (Qltb 0 (inject_Z total_nodes * (test_hours * 3600))) eqn:Hpos; [|reflexivity].
  apply Qltb_lt in Hpos.
  assert (Hnz : ~ (inject_Z total_nodes * (test_hours * 3600) == 0)%Q).
  { intros H0. rewrite H0 in Hpos. by apply Qlt_irrefl in Hpos. }
  rewrite HD. field. split; intros H0; apply Hnz; rewrite H0; ring.
Qed.

(** C3: the metrics [main] computes are those of the specification,
    throughput [M / T] with [T] the configured window in hours and
    utilization [100 * sum / (total_nodes * window_seconds)], each 0 when its
    denominator is not positive; on the four-job scenario they are 4 jobs per
    hour and 12.5 percent. *)
Theorem metrics_match_spec (test_hours : Q) (total_nodes cnt : Z) (details : list job_info) :
  (system_throughput (compute_metrics test_hours total_nodes cnt details)
     == spec_throughput cnt test_hours)%Q
  /\ (resource_utilization (compute_metrics test_hours total_nodes cnt details)
        == spec_utilization details total_nodes (test_hours * 3600))%Q
  /\ sum_Nj_Tj (compute_metrics 1 8 4 scenario_jobs) = 3600
  /\ (resource_utilization (compute_metrics 1 8 4 scenario_jobs) == 25 # 2)%Q
  /\ (system_throughput (compute_metrics 1 8 4 scenario_jobs) == 4)%Q.
Proof.
  split_and!.
  - apply compute_throughput_spec.
  - apply compute_utilization_spec.
  - reflexivity.
  - reflexivity.
  - reflexivity.
Qed.

(** ** The used-slot query *)

Lemma count_used_from (jobs : list active_job) (a : Z) :
  fold_left (fun used job =>
               if bool_decide (aj_state job = "RUNNING") then used + aj_nodes job else used)
            jobs a
  = a + running_nodes jobs.
Proof.
  unfold running_nodes. revert a. induction jobs as [|j jobs IH]; intros a; simpl.
  - unfold sum_Z. simpl. lia.
  - rewrite IH. rewrite filter_cons. case_bool_decide as Hs.
    + rewrite decide_True by done. simpl. unfold sum_Z at 2. simpl.
      rewrite sum_Z_from. lia.
    + rewrite decide_False by done. done.
Qed.

Lemma count_used_running (jobs : list active_job) : count_used jobs = running_nodes jobs.
Proof. unfold count_used. rewrite count_used_from. lia. Qed.

Lemma running_nodes_skip (jobs1 jobs2 : list active_job) (j : active_job) :
  aj_state j <> "RUNNING" ->
  running_nodes (jobs1 ++ j :: jobs2) = running_nodes (jobs1 ++ jobs2).
Proof.
  intros Hs. unfold running_nodes.
  rewrite !filter_app, filter_cons, decide_False by done. done.
Qed.

Lemma get_current_used_nodes_eq (E : env) (w : world) :
  fst (get_current_used_nodes E w)
  = (do jobs <~ parse_squeue (reply E (calls w) squeue_cmd) ;; Ok (count_used jobs)).
Proof.
  unfold get_current_used_nodes, check_active_jobs, subprocess_run, bind, external,
    ret, lift. simpl.
  by destruct (parse_squeue _).
Qed.

Lemma sum_Z_app (xs ys : list Z) : sum_Z (xs ++ ys) = sum_Z xs + sum_Z ys.
Proof.
  induction xs as [|x xs IH]; simpl.
  - unfold sum_Z at 2. simpl. lia.
  - rewrite !sum_Z_cons, IH. lia.
Qed.

Lemma running_nodes_snoc (jobs : list active_job) (j : active_job) :
  running_nodes (jobs ++ [j])
  = running_nodes jobs + (if bool_decide (aj_state j = "RUNNING") then aj_nodes j else 0).
Proof.
  unfold running_nodes. rewrite filter_app, map_app, sum_Z_app. f_equal.
  rewrite filter_cons, filter_nil. case_bool_decide.
  - rewrite decide_True by done. simpl. rewrite sum_Z_cons. unfold sum_Z. simpl. lia.
  - rewrite decide_False by done. done.
Qed.

(** One line of the reply, read by the code and by [running_slots]. *)
Lemma scan_squeue_line_slots (jobs : list active_job) (ln : string) :
  match scan_squeue_line jobs ln with
  | Ok jobs' =>
      line_readable ln = true
      /\ running_nodes jobs' = running_nodes jobs + running_slots ln
  | Raise e => e = ValueError /\ line_readable ln = false
  end.
Proof.
  unfold scan_squeue_line, line_readable, running_slots, squeue_fields, active_state.
  destruct (py_split (py_strip ln)) as [|p0 [|p1 [|p2 rest]]];
    try (split; [done|lia]).
  destruct (bool_decide (p2 = "RUNNING")) eqn:Hrun; simpl.
  - unfold py_int. destruct (match py_strip p1 with | EmptyString => _ | String _ _ => _ end)
      as [n|]; simpl; [|done].
    split; [done|]. rewrite running_nodes_snoc. simpl. by rewrite Hrun.
  - destruct (bool_decide (p2 = "PENDING")) eqn:Hpend; simpl; [|split; [done|lia]].
    unfold py_int. destruct (match py_strip p1 with | EmptyString => _ | String _ _ => _ end)
      as [n|]; simpl; [|done].
    split; [done|]. rewrite running_nodes_snoc. simpl. rewrite Hrun. lia.
Qed.

Lemma scan_squeue_lines_slots (lines : list string) (jobs : list active_job) :
  match rfold scan_squeue_line lines jobs with
  | Ok jobs' =>
      forallb line_readable lines = true
      /\ running_nodes jobs' = running_nodes jobs + sum_Z (map running_slots lines)
  | Raise e => e = ValueError /\ forallb line_readable lines = false
  end.
Proof.
  revert jobs. induction lines as [|ln lines IH]; intros jobs; simpl.
  - split; [done|]. unfold sum_Z. simpl. lia.
  - pose proof (scan_squeue_line_slots jobs ln) as Hln.
    destruct (scan_squeue_line jobs ln) as [jobs1|e]; simpl.
    + destruct Hln as [-> Hslots]. specialize (IH jobs1).
      destruct (rfold scan_squeue_line lines jobs1) as [jobs'|e].
      * destruct IH as [-> Hrest]. split; [done|]. rewrite sum_Z_cons. lia.
      * done.
    + destruct Hln as [-> ->]. done.
Qed.

(** C6: the used-slot query returns the sum of the node counts of the reply
    lines whose state is RUNNING; a line in any other state, PENDING among
    them, adds nothing; when squeue exits with a non-zero status the query
    returns 0 instead of raising, and after a status of 0 it raises only
    for a RUNNING or PENDING line whose node count is not an integer. *)
Theorem used_nodes_running_only (E : env) (w : world) :
  fst (get_current_used_nodes E w)
    = (if returncode (reply E (calls w) squeue_cmd) =? 0
       then if forallb line_readable
                 (py_splitlines (stdout (reply E (calls w) squeue_cmd)))
            then Ok (sum_Z (map running_slots
                              (py_splitlines (stdout (reply E (calls w) squeue_cmd)))))
            else Raise ValueError
       else Ok 0)
  /\ (forall ln id nodes_field state,
        squeue_fields ln = Some (id, nodes_field, state) ->
        state <> "RUNNING" -> running_slots ln = 0)
  /\ (forall ln id nodes_field n,
        squeue_fields ln = Some (id, nodes_field, "RUNNING") ->
        py_int nodes_field = Ok n -> running_slots ln = n)
  /\ fst (get_current_used_nodes E w)
     = (do jobs <~ parse_squeue (reply E (calls w) squeue_cmd) ;; Ok (running_nodes jobs))
  /\ (forall jobs1 j jobs2,
        aj_state j <> "RUNNING" ->
        count_used (jobs1 ++ j :: jobs2) = count_used (jobs1 ++ jobs2))
  /\ (returncode (reply E (calls w) squeue_cmd) <> 0 ->
      fst (get_current_used_nodes E w) = Ok 0).
Proof.
  split_and!.
  - rewrite get_current_used_nodes_eq. unfold parse_squeue.
    destruct (returncode _ =? 0); [|done].
    pose proof (scan_squeue_lines_slots
                  (py_splitlines (stdout (reply E (calls w) squeue_cmd))) []) as Hl.
    destruct (rfold scan_squeue_line _ []) as [jobs|e]; simpl.
    + destruct Hl as [-> Hsum]. rewrite count_used_running, Hsum.
      unfold running_nodes, sum_Z. simpl. done.
    + by destruct Hl as [-> ->].
  - intros ln id nodes_field state Hf Hs. unfold running_slots. rewrite Hf.
    by rewrite bool_decide_eq_false_2.
  - intros ln id nodes_field n Hf Hn. unfold running_slots. rewrite Hf, Hn. done.
  - rewrite get_current_used_nodes_eq.
    destruct (parse_squeue _); simpl; [|done]. by rewrite count_used_running.
  - intros jobs1 j jobs2 Hs. rewrite !count_used_running. by apply running_nodes_skip.
  - intros Hrc. rewrite get_current_used_nodes_eq. unfold parse_squeue.
    apply Z.eqb_neq in Hrc. by rewrite Hrc.
Qed.

Example squeue_running_and_pending :
  parse_squeue {| returncode := 0;
                  stdout := "11 2 RUNNING" +:+ String "010" "12 5 PENDING"
                            +:+ String "010" "13 1 RUNNING" +:+ String "010" "" |}
  = Ok [ {| aj_jobid := "11"; aj_nodes := 2; aj_state := "RUNNING" |};
         {| aj_jobid := "12"; aj_nodes := 5; aj_state := "PENDING" |};
         {| aj_jobid := "13"; aj_nodes := 1; aj_state := "RUNNING" |} ]
  /\ count_used [ {| aj_jobid := "11"; aj_nodes := 2; aj_state := "RUNNING" |};
                  {| aj_jobid := "12"; aj_nodes := 5; aj_state := "PENDING" |};
                  {| aj_jobid := "13"; aj_nodes := 1; aj_state := "RUNNING" |} ] = 3.
Proof. split; reflexivity. Qed.

(** The query on a cluster whose squeue shows one six-node job running, and
    on a reply with a pending job and a line that is no job. *)
Example used_nodes_of_replies :
  fst (get_current_used_nodes env_drift fresh_world) = Ok 6
  /\ sum_Z (map running_slots ["11 2 RUNNING"; "12 5 PENDING"; "13 1 RUNNING"; "JOBID"]) = 3
  /\ line_readable "12 x PENDING" = false
  /\ line_readable "12 x COMPLETING" = true.
Proof. split_and!; reflexivity. Qed.

(** ** Completion states *)

Lemma scan_sacct_line_dom (jobids : list string) (fd : gmap string bool) (line : string) :
  dom fd ⊆ (list_to_set jobids : gset string) ->
  dom (scan_sacct_line jobids fd line) ⊆ (list_to_set jobids : gset string).
Proof.
  intros Hfd. unfold scan_sacct_line.
  destruct (py_split (py_strip line)) as [|jid [|state rest]]; [done..|].
  destruct (negb (has_dot jid) && bool_decide (jid ∈ jobids)) eqn:Hc; [|done].
  apply andb_true_iff in Hc as [_ Hin]. apply bool_decide_eq_true in Hin.
  rewrite dom_insert. apply union_subseteq. split; [|done].
  apply singleton_subseteq_l. by apply elem_of_list_to_set.
Qed.

Lemma scan_sacct_lines_dom (jobids : list string) (lines : list string) (fd : gmap string bool) :
  dom fd ⊆ (list_to_set jobids : gset string) ->
  dom (fold_left (scan_sacct_line jobids) lines fd) ⊆ (list_to_set jobids : gset string).
Proof.
  revert fd. induction lines as [|line lines IH]; intros fd Hfd; simpl; [done|].
  by apply IH, scan_sacct_line_dom.
Qed.

Lemma scan_sacct_line_other (jobids : list string) (fd : gmap string bool)
    (line jid : string) :
  head (py_split (py_strip line)) <> Some jid ->
  scan_sacct_line jobids fd line !! jid = fd !! jid.
Proof.
  intros Hhead. unfold scan_sacct_line.
  destruct (py_split (py_strip line)) as [|jid' [|state rest]]; [done..|].
  destruct (negb (has_dot jid') && bool_decide (jid' ∈ jobids)); [|done].
  apply lookup_insert_ne. intros ->. by apply Hhead.
Qed.

Lemma scan_sacct_lines_other (jobids : list string) (lines : list string)
    (fd : gmap string bool) (jid : string) :
  Forall (fun line => head (py_split (py_strip line)) <> Some jid) lines ->
  fold_left (scan_sacct_line jobids) lines fd !! jid = fd !! jid.
Proof.
  intros Hall. revert fd. induction Hall as [|line lines Hline _ IH]; intros fd; simpl; [done|].
  rewrite IH. by apply scan_sacct_line_other.
Qed.

Lemma default_unfinished_dom (jobids : list string) (fd : gmap string bool) :
  dom (fold_left default_unfinished jobids fd) = dom fd ∪ list_to_set jobids.
Proof.
  revert fd. induction jobids as [|jid jobids IH]; intros fd; simpl.
  - set_solver.
  - rewrite IH. unfold default_unfinished.
    destruct (fd !! jid) as [b|] eqn:Hjid.
    + apply (elem_of_dom_2 (D := gset string)) in Hjid. set_solver.
    + rewrite dom_insert_L. set_solver.
Qed.

Lemma default_unfinished_keeps (jobids : list string) (fd : gmap string bool)
    (jid : string) (b : bool) :
  fd !! jid = Some b -> fold_left default_unfinished jobids fd !! jid = Some b.
Proof.
  revert fd. induction jobids as [|jid' jobids IH]; intros fd Hfd; simpl; [done|].
  apply IH. unfold default_unfinished.
  destruct (fd !! jid') eqn:Hjid'; [done|].
  rewrite lookup_insert_ne; [done|]. intros ->. congruence.
Qed.

Lemma default_unfinished_fills (jobids : list string) (fd : gmap string bool) (jid : string) :
  jid ∈ jobids -> fd !! jid = None ->
  fold_left default_unfinished jobids fd !! jid = Some false.
Proof.
  revert fd. induction jobids as [|jid' jobids IH]; intros fd Hin Hfd; simpl.
  - by apply elem_of_nil in Hin.
  - destruct (decide (jid' = jid)) as [->|Hne].
    + apply default_unfinished_keeps. unfold default_unfinished.
      rewrite Hfd. apply lookup_insert_eq.
    + apply elem_of_cons in Hin as [->|Hin]; [done|].
      apply IH; [done|]. unfold default_unfinished.
      destruct (fd !! jid'); [done|]. by rewrite lookup_insert_ne.
Qed.

Lemma resolve_finished_dom (jobids : list string) (r : proc_result) :
  dom (resolve_finished jobids r) = list_to_set jobids.
Proof.
  unfold resolve_finished. rewrite default_unfinished_dom.
  assert (dom (if returncode r =? 0
               then fold_left (scan_sacct_line jobids) (py_splitlines (stdout r)) ∅
               else ∅) ⊆ (list_to_set jobids : gset string)) as Hsub; [|set_solver].
  destruct (returncode r =? 0); [|set_solver].
  apply scan_sacct_lines_dom. set_solver.
Qed.

Lemma resolve_finished_absent (jobids : list string) (r : proc_result) (jid : string) :
  jid ∈ jobids -> absent_from r jid -> resolve_finished jobids r !! jid = Some false.
Proof.
  intros Hin Habs. unfold resolve_finished.
  apply default_unfinished_fills; [done|].
  destruct (returncode r =? 0) eqn:Hrc; [|done].
  destruct Habs as [Hne|Hlines]; [by apply Z.eqb_eq in Hrc|].
  by rewrite scan_sacct_lines_other.
Qed.

(** C8: [check_jobs_finished] returns a mapping whose keys are exactly the
    queried handles, each with a boolean, and a queried handle that is absent
    from the accounting response is mapped to [false]. *)
Theorem check_jobs_finished_total (E : env) (jobids : list string) (w : world) :
  exists finished_dict : gmap string bool,
    fst (check_jobs_finished E jobids w) = Ok finished_dict
    /\ dom finished_dict = (list_to_set jobids : gset string)
    /\ forall jid,
         jid ∈ jobids ->
         absent_from (reply E (calls w) (sacct_cmd jobids)) jid ->
         finished_dict !! jid = Some false.
Proof.
  destruct jobids as [|jid0 jobids].
  - exists ∅. split_and!; [done | set_solver |].
    intros jid Hin. by apply elem_of_nil in Hin.
  - exists (resolve_finished (jid0 :: jobids) (reply E (calls w) (sacct_cmd (jid0 :: jobids)))).
    split_and!.
    + done.
    + apply resolve_finished_dom.
    + intros jid Hin Habs. by apply resolve_finished_absent.
Qed.

(** ** The admission loop *)

Lemma submit_cmd_not_squeue (n : Z) (q s : string) : submit_cmd n q s <> squeue_cmd.
Proof.
  intros H. apply (f_equal (String.get 1)) in H. vm_compute in H. discriminate.
Qed.

Lemma get_current_used_nodes_world (E : env) (w : world) :
  snd (get_current_used_nodes E w) = after E 0 (EvRun squeue_cmd) w.
Proof.
  unfold get_current_used_nodes, check_active_jobs, subprocess_run, bind, ret, lift, after.
  simpl. by destruct (parse_squeue _).
Qed.

Lemma submit_job_world (E : env) (n d : Z) (templates : gmap Z string) (q : string) (w : world) :
  snd (submit_job E n d templates q w)
  = match templates !! d with
    | Some script => after E 0 (EvRun (submit_cmd n q script)) w
    | None => snd (print (MsgTemplateMissing d) w)
    end.
Proof.
  unfold submit_job. destruct (templates !! d) as [script|]; [|done].
  unfold subprocess_run, bind, ret, lift, after. simpl.
  destruct (returncode _ =? 0); [|done]. by destruct (py_split _).
Qed.

Lemma time_sleep_eq (E : env) (secs : Q) (w : world) :
  time_sleep E secs w = (Ok tt, after E secs (EvSleep secs) w).
Proof. done. Qed.

Lemma record_submission_None (total_nodes : Z) (loc : locals) (t : task) (used : Z)
    (script : option string) (w : world) :
  record_submission total_nodes loc t used None script w
  = (Ok loc, snd (print (MsgSubmitFailed script) w)).
Proof. done. Qed.

Lemma record_submission_Some (total_nodes : Z) (loc : locals) (t : task) (used : Z)
    (id : string) (script : option string) (w : world) :
  id <> EmptyString ->
  record_submission total_nodes loc t used (Some id) script w
  = let job := {| jobid := id; job_nodes := task_nodes t; job_duration := task_duration t;
                  submit_time := now w; script_file := script |} in
    (Ok {| task_index := S (task_index loc); total_jobs := total_jobs loc + 1 |},
     {| now := now w; calls := calls w;
        trace := trace w ++ [EvSaveJob job; EvPrint (MsgSubmitted job used total_nodes)];
        submitted_jobs := submitted_jobs w ++ [job] |}).
Proof.
  intros Hid. unfold record_submission.
  destruct id as [|c id]; [done|]. simpl.
  unfold bind, time_time, append_submitted, emit, print, emit, ret. simpl.
  by rewrite <- app_assoc.
Qed.

Section Loop.

Variable E : env.
Variable total_nodes : Z.
Variable queue_name : string.
Variable slurm_templates : gmap Z string.
Variable task_list : list task.

Abbreviation body := (loop_body E total_nodes queue_name slurm_templates task_list).
Abbreviation submit t w := (submit_job E (task_nodes t) (task_duration t) slurm_templates queue_name w).

(** The paths through one pass of the loop body. *)
Lemma loop_body_cases (loc : locals) (w : world) :
  match task_list !! task_index loc with
  | None => body loc w = (Raise IndexError, w)
  | Some t =>
      let w1 := after E 0 (EvRun squeue_cmd) w in
      match fst (get_current_used_nodes E w) with
      | Raise e => body loc w = (Raise e, w1)
      | Ok used =>
          if task_nodes t <=? available_nodes total_nodes used then
            match fst (submit t w1) with
            | Raise e => body loc w = (Raise e, snd (submit t w1))
            | Ok r =>
                let rs := record_submission total_nodes loc t used (fst r) (snd r)
                            (snd (submit t w1)) in
                body loc w = (fst rs, after E 1 (EvSleep 1) (snd rs))
                /\ exists loc', fst rs = Ok loc'
            end
          else
            body loc w
            = (Ok loc, after E (uniform_5_10 E (S (calls w)))
                         (EvSleep (uniform_5_10 E (S (calls w)))) w1)
      end
  end.
Proof.
  unfold loop_body. destruct (task_list !! task_index loc) as [t|]; [|done].
  pose proof (get_current_used_nodes_world E w) as Hw1.
  lazy beta iota zeta. set (w1 := after E 0 (EvRun squeue_cmd) w) in *.
  destruct (get_current_used_nodes E w) as [[used|e] w1'] eqn:Hq;
    simpl in Hw1; subst w1'; simpl.
  2:{ unfold bind. by rewrite Hq. }
  destruct (task_nodes t <=? available_nodes total_nodes used) eqn:Hfit.
  - destruct (submit_job E _ _ _ _ w1) as [[r|e] w2] eqn:Hs; simpl.
    2:{ unfold bind. by rewrite Hq, Hfit, Hs. }
    destruct (record_submission total_nodes loc t used (fst r) (snd r) w2)
      as [[loc'|e] w3] eqn:Hrs; simpl.
    + split; [|eauto]. unfold bind. by rewrite Hq, Hfit, Hs, Hrs.
    + exfalso. revert Hrs. unfold record_submission.
      destruct (truthy (fst r)); unfold bind; simpl; discriminate.
  - unfold bind. by rewrite Hq, Hfit.
Qed.

Lemma submit_job_trace (t : task) (w : world) :
  exists ev, trace (snd (submit t w)) = trace w ++ [ev]
             /\ submitted_jobs (snd (submit t w)) = submitted_jobs w.
Proof.
  rewrite submit_job_world. destruct (slurm_templates !! task_duration t); eauto.
Qed.

Lemma record_submission_trace (loc : locals) (t : task) (used : Z)
    (id script : option string) (w : world) :
  exists evs, trace (snd (record_submission total_nodes loc t used id script w))
              = trace w ++ evs.
Proof.
  destruct id as [id|]; [|by eexists].
  destruct (decide (id = EmptyString)) as [->|Hid]; [by eexists|].
  rewrite record_submission_Some by done. by eexists.
Qed.

(** C5: whenever a pass of the loop body runs a command other than the
    capacity query, or adds a record to [submitted_jobs], the capacity check
    of that pass had found [task.nodes <= total_nodes - used]; and when the
    task needs more than [total_nodes - used], the pass only queries the
    capacity and sleeps: no submission command, no record, same task next. *)
Theorem submission_respects_capacity (loc : locals) (w : world) :
  exists evs,
    trace (snd (body loc w)) = trace w ++ evs
    /\ (((exists cmd, EvRun cmd ∈ evs /\ cmd <> squeue_cmd)
         \/ submitted_jobs (snd (body loc w)) <> submitted_jobs w) ->
        exists t used,
          task_list !! task_index loc = Some t
          /\ fst (get_current_used_nodes E w) = Ok used
          /\ task_nodes t <= total_nodes - used)
    /\ (forall t used,
          task_list !! task_index loc = Some t ->
          fst (get_current_used_nodes E w) = Ok used ->
          total_nodes - used < task_nodes t ->
          evs = [EvRun squeue_cmd; EvSleep (uniform_5_10 E (S (calls w)))]
          /\ submitted_jobs (snd (body loc w)) = submitted_jobs w
          /\ fst (body loc w) = Ok loc).
Proof.
  pose proof (loop_body_cases loc w) as Hc.
  destruct (task_list !! task_index loc) as [t|] eqn:Ht.
  2:{ rewrite Hc. exists []. simpl. rewrite app_nil_r. split_and!; [done| |done].
      intros [(cmd & Hin & _)|Hne]; [by apply elem_of_nil in Hin | done]. }
  cbv zeta in Hc.
  destruct (fst (get_current_used_nodes E w)) as [used|e] eqn:Hq.
  2:{ rewrite Hc. exists [EvRun squeue_cmd]. split_and!; [done| |done].
      intros [(cmd & Hin & Hne)|Hne]; [|done].
      apply list_elem_of_singleton in Hin. congruence. }
  unfold available_nodes in Hc.
  destruct (task_nodes t <=? total_nodes - used) eqn:Hfit.
  - apply Z.leb_le in Hfit.
    assert (exists evs, trace (snd (body loc w)) = trace w ++ evs) as [evs Hevs].
    { destruct (submit_job_trace t (after E 0 (EvRun squeue_cmd) w)) as (ev & Hev & _).
      destruct (fst (submit t _)) as [r|e] eqn:Hs.
      - destruct Hc as [-> _]. simpl.
        destruct (record_submission_trace loc t used (fst r) (snd r)
                    (snd (submit t (after E 0 (EvRun squeue_cmd) w)))) as [evs' ->].
        rewrite Hev. simpl. rewrite <- !app_assoc. by eexists.
      - rewrite Hc. simpl. rewrite Hev. simpl. rewrite <- !app_assoc. by eexists. }
    exists evs. split_and!; [done| |].
    + intros _. exists t, used. by split_and!.
    + intros t' used' [= <-] [= <-] Hlt. lia.
  - apply Z.leb_gt in Hfit. rewrite Hc.
    exists [EvRun squeue_cmd; EvSleep (uniform_5_10 E (S (calls w)))].
    split_and!.
    + simpl. by rewrite <- app_assoc.
    + intros [(cmd & Hin & Hne)|Hne]; [|done].
      apply elem_of_cons in Hin as [[= ->]|Hin]; [done|].
      apply list_elem_of_singleton in Hin. discriminate.
    + intros t' used' [= <-] [= <-] _. done.
Qed.

(** C7: in a pass where the task fits and [submit_job] returns, the pass
    ends with the one-second sleep whether or not a job handle came back;
    when no handle came back the loop variables are unchanged (the same task
    is looked at again), no record is added to [submitted_jobs], and the
    only events after the submission are the failure message and that
    sleep. *)
Theorem failed_submission_retries (loc : locals) (w : world) (t : task) (used : Z)
    (r : option string * option string) :
  task_list !! task_index loc = Some t ->
  fst (get_current_used_nodes E w) = Ok used ->
  task_nodes t <= total_nodes - used ->
  fst (submit t (after E 0 (EvRun squeue_cmd) w)) = Ok r ->
  (exists evs,
     trace (snd (body loc w))
     = trace (snd (submit t (after E 0 (EvRun squeue_cmd) w))) ++ evs ++ [EvSleep 1])
  /\ (fst r = None ->
      fst (body loc w) = Ok loc
      /\ submitted_jobs (snd (body loc w)) = submitted_jobs w
      /\ trace (snd (body loc w))
         = trace (snd (submit t (after E 0 (EvRun squeue_cmd) w)))
             ++ [EvPrint (MsgSubmitFailed (snd r)); EvSleep 1]).
Proof.
  intros Ht Hq Hfit Hs.
  pose proof (loop_body_cases loc w) as Hc.
  rewrite Ht in Hc. cbv zeta in Hc. rewrite Hq in Hc.
  apply Z.leb_le in Hfit. unfold available_nodes in Hc. rewrite Hfit, Hs in Hc.
  destruct Hc as [Hc _]. rewrite Hc.
  destruct (submit_job_trace t (after E 0 (EvRun squeue_cmd) w)) as (ev & _ & Hjobs).
  split.
  - destruct (record_submission_trace loc t used (fst r) (snd r)
                (snd (submit t (after E 0 (EvRun squeue_cmd) w)))) as [evs Hevs].
    exists evs. simpl. by rewrite Hevs, <- app_assoc.
  - intros Hnone. rewrite Hnone, record_submission_None. simpl.
    split_and!; [done | by rewrite Hjobs | by rewrite <- app_assoc].
Qed.

Lemma admission_loop_S (fuel : nat) (end_time : Q) (loc : locals) (w : world) :
  admission_loop E total_nodes queue_name (S fuel) slurm_templates task_list end_time loc w
  = if Qltb (now w) end_time && (task_index loc <? length task_list)%nat
    then match body loc w with
         | (Ok loc', w') =>
             admission_loop E total_nodes queue_name fuel slurm_templates task_list
               end_time loc' w'
         | (Raise e, w') => (Raise e, w')
         end
    else (Ok loc, w).
Proof.
  simpl. unfold bind at 1, loop_guard, bind at 1, time_time, ret. simpl.
  destruct (Qltb (now w) end_time && (task_index loc <? length task_list)%nat); [|done].
  unfold bind. by destruct (body loc w) as [[loc'|e] w'].
Qed.

(** The records one pass adds carry the instant that follows the capacity
    query and the submission command of that pass. *)
Lemma loop_body_new_records (L : Q) (loc : locals) (w : world) :
  (forall k, latency E k <= L)%Q ->
  exists new,
    submitted_jobs (snd (body loc w)) = submitted_jobs w ++ new
    /\ Forall (fun j => submit_time j <= now w + 2 * L)%Q new.
Proof.
  intros HL. pose proof (loop_body_cases loc w) as Hc.
  destruct (task_list !! task_index loc) as [t|] eqn:Ht.
  2:{ rewrite Hc. exists []. by rewrite app_nil_r. }
  cbv zeta in Hc.
  destruct (fst (get_current_used_nodes E w)) as [used|e] eqn:Hq.
  2:{ rewrite Hc. exists []. by rewrite app_nil_r. }
  destruct (task_nodes t <=? available_nodes total_nodes used).
  2:{ rewrite Hc. exists []. by rewrite app_nil_r. }
  set (w1 := after E 0 (EvRun squeue_cmd) w) in *.
  destruct (submit_job_trace t w1) as (ev & _ & Hjobs).
  destruct (fst (submit t w1)) as [r|e] eqn:Hs.
  2:{ rewrite Hc. simpl. rewrite Hjobs. exists []. by rewrite app_nil_r. }
  destruct Hc as [-> _]. simpl.
  destruct (truthy (fst r)) as [id|] eqn:Hid.
  - assert (fst r = Some id /\ id <> EmptyString) as [Hr Hne].
    { destruct (fst r) as [[|c s]|]; simpl in Hid; [done| |done].
      by injection Hid as <-. }
    rewrite Hr, record_submission_Some by done. simpl. rewrite Hjobs.
    eexists. split; [done|]. apply Forall_singleton. simpl.
    rewrite submit_job_world.
    assert (now (after E 0 (EvRun squeue_cmd) w) <= now w + L)%Q as H1.
    { simpl. rewrite Qplus_0_r. apply Qplus_le_r, HL. }
    destruct (slurm_templates !! task_duration t) as [script|] eqn:Hl.
    + unfold after at 1. simpl. fold w1. rewrite Qplus_0_r.
      apply Qle_trans with (now w + L + L)%Q.
      * apply Qplus_le_compat; [exact H1 | apply HL].
      * apply Qle_lteq. right. ring.
    + exfalso. unfold submit_job in Hs. rewrite Hl in Hs.
      unfold bind, print, emit, ret in Hs. simpl in Hs.
      injection Hs as <-. discriminate Hr.
  - assert (record_submission total_nodes loc t used (fst r) (snd r) (snd (submit t w1))
            = (Ok loc, snd (print (MsgSubmitFailed (snd r)) (snd (submit t w1))))) as ->.
    { unfold record_submission. by rewrite Hid. }
    simpl. rewrite Hjobs. exists []. by rewrite app_nil_r.
Qed.

(** C4, as the code has it: the deadline is checked once, at the top of each
    pass, and the submit instant is read after the capacity query and the
    submission command of that pass.  When no external action takes longer
    than [L], every record the loop adds has a submit instant earlier than
    the window end plus [2 * L]. *)
Theorem submit_time_within_latency (L end_time : Q) (fuel : nat) (loc : locals) (w : world) :
  (forall k, latency E k <= L)%Q ->
  exists new,
    submitted_jobs
      (snd (admission_loop E total_nodes queue_name fuel slurm_templates task_list
              end_time loc w))
    = submitted_jobs w ++ new
    /\ Forall (fun j => submit_time j < end_time + 2 * L)%Q new.
Proof.
  intros HL. revert loc w. induction fuel as [|fuel IH]; intros loc w.
  - exists []. simpl. by rewrite app_nil_r.
  - rewrite admission_loop_S.
    destruct (Qltb (now w) end_time && (task_index loc <? length task_list)%nat) eqn:Hg.
    2:{ exists []. simpl. by rewrite app_nil_r. }
    apply andb_true_iff in Hg as [Hnow _]. apply Qltb_lt in Hnow.
    destruct (loop_body_new_records L loc w HL) as (new1 & H1 & HF1).
    assert (Forall (fun j => submit_time j < end_time + 2 * L)%Q new1) as HF1'.
    { eapply Forall_impl; [exact HF1|]. intros j Hj. simpl in Hj.
      eapply Qle_lt_trans; [exact Hj|]. by apply Qplus_lt_l. }
    destruct (body loc w) as [[loc'|e] w'].
    + destruct (IH loc' w') as (new2 & H2 & HF2).
      exists (new1 ++ new2). split.
      * rewrite H2. simpl in H1. by rewrite H1, app_assoc.
      * by apply Forall_app.
    + exists new1. by split.
Qed.

(** *** The loop ends: fuel is only a bound on the number of passes *)

Section Termination.

Hypothesis latency_nonneg : forall k, (0 <= latency E k)%Q.
Hypothesis backoff_at_least_1 : forall k, (1 <= uniform_5_10 E k)%Q.

Lemma after_now (base : Q) (ev : event) (w : world) :
  (0 <= base)%Q -> (now w + base <= now (after E base ev w))%Q.
Proof.
  intros Hb. simpl. rewrite <- (Qplus_0_r (now w + base)) at 1.
  apply Qplus_le_r, latency_nonneg.
Qed.

Lemma submit_job_now (t : task) (w : world) : (now w <= now (snd (submit t w)))%Q.
Proof.
  rewrite submit_job_world. destruct (slurm_templates !! task_duration t).
  - eapply Qle_trans; [|apply after_now; discriminate].
    rewrite Qplus_0_r. apply Qle_refl.
  - apply Qle_refl.
Qed.

Lemma record_submission_now (loc : locals) (t : task) (used : Z)
    (id script : option string) (w : world) :
  now (snd (record_submission total_nodes loc t used id script w)) = now w.
Proof.
  destruct id as [id|]; [|done].
  destruct (decide (id = EmptyString)) as [->|Hid]; [done|].
  by rewrite record_submission_Some.
Qed.

(** Every pass that returns took at least one second. *)
Lemma loop_body_now (loc loc' : locals) (w w' : world) :
  body loc w = (Ok loc', w') -> (now w + 1 <= now w')%Q.
Proof.
  intros Hb. pose proof (loop_body_cases loc w) as Hc.
  destruct (task_list !! task_index loc) as [t|]; [|congruence].
  cbv zeta in Hc.
  assert (now w <= now (after E 0 (EvRun squeue_cmd) w))%Q as H1.
  { eapply Qle_trans; [|apply after_now; discriminate].
    rewrite Qplus_0_r. apply Qle_refl. }
  destruct (fst (get_current_used_nodes E w)) as [used|e]; [|congruence].
  destruct (task_nodes t <=? available_nodes total_nodes used).
  - destruct (fst (submit t _)) as [r|e]; [|congruence].
    destruct Hc as [Hc _]. rewrite Hc in Hb. injection Hb as _ <-.
    eapply Qle_trans; [|apply after_now; discriminate].
    apply Qplus_le_l. rewrite record_submission_now.
    eapply Qle_trans; [exact H1 | apply submit_job_now].
  - rewrite Hc in Hb. injection Hb as _ <-.
    eapply Qle_trans; [|apply after_now].
    + apply Qplus_le_compat; [exact H1 | apply backoff_at_least_1].
    + eapply Qle_trans; [|apply backoff_at_least_1]. discriminate.
Qed.

Lemma inject_S (n : nat) :
  (inject_Z (Z.of_nat (S n)) == inject_Z (Z.of_nat n) + 1)%Q.
Proof. rewrite Nat2Z.inj_succ. unfold Z.succ. by rewrite inject_Z_plus. Qed.

(** Once the fuel exceeds the seconds left in the window, the loop has left
    through its guard (or raised), and more fuel changes nothing. *)
Lemma admission_loop_enough_fuel (end_time : Q) (fuel extra : nat)
    (loc : locals) (w : world) :
  (end_time - now w < inject_Z (Z.of_nat fuel))%Q ->
  admission_loop E total_nodes queue_name (fuel + extra) slurm_templates task_list
    end_time loc w
  = admission_loop E total_nodes queue_name fuel slurm_templates task_list
      end_time loc w.
Proof.
  revert loc w. induction fuel as [|fuel IH]; intros loc w Hleft.
  - destruct extra as [|extra]; [done|].
    rewrite Nat.add_0_l, admission_loop_S.
    assert (Qltb (now w) end_time = false) as ->; [|done].
    apply not_true_is_false. rewrite Qltb_lt. intros Hlt.
    change (inject_Z (Z.of_nat 0)) with 0%Q in Hleft. lra.
  - change (S fuel + extra)%nat with (S (fuel + extra)). rewrite !admission_loop_S.
    destruct (Qltb (now w) end_time && _); [|done].
    destruct (body loc w) as [[loc'|e] w'] eqn:Hb; [|done].
    apply IH. apply loop_body_now in Hb.
    rewrite inject_S in Hleft. lra.
Qed.

(** With that much fuel a loop that returns has left through its guard: the
    window is over or no task remains. *)
Lemma admission_loop_exit (end_time : Q) (fuel : nat) (loc loc' : locals) (w w' : world) :
  (end_time - now w < inject_Z (Z.of_nat fuel))%Q ->
  admission_loop E total_nodes queue_name fuel slurm_templates task_list end_time loc w
  = (Ok loc', w') ->
  Qltb (now w') end_time && (task_index loc' <? length task_list)%nat = false.
Proof.
  revert loc w. induction fuel as [|fuel IH]; intros loc w Hleft.
  - intros [= <- <-].
    assert (Qltb (now w) end_time = false) as ->; [|done].
    apply not_true_is_false. rewrite Qltb_lt. intros Hlt.
    change (inject_Z (Z.of_nat 0)) with 0%Q in Hleft. lra.
  - rewrite admission_loop_S.
    destruct (Qltb (now w) end_time && _) eqn:Hg; [|by intros [= <- <-]].
    destruct (body loc w) as [[loc1|e] w1] eqn:Hb; [|discriminate].
    apply IH. apply loop_body_now in Hb. rewrite inject_S in Hleft. lra.
Qed.

End Termination.

End Loop.

(** ** Instances *)

Lemma generate_task_list_zero_ratios_witness :
  generate_task_list (fun _ => 0%nat) ([] ++ zero_ratio_entry :: [])
  = Raise ZeroDivisionError.
Proof.
  apply (generate_task_list_zero_ratios (fun _ => 0%nat) [] [] zero_ratio_entry).
  - discriminate.
  - repeat constructor.
Defined.

Lemma generated_duration_has_template_witness :
  exists script,
    get_duration_template_map one_task_mix !! 5 = Some script
    /\ forall E queue_name w,
         trace (snd (submit_job E 4 5 (get_duration_template_map one_task_mix) queue_name w))
           = trace w ++ [EvRun (submit_cmd 4 queue_name script)]
         /\ fst (submit_job E 4 5 (get_duration_template_map one_task_mix) queue_name w)
            <> Ok (None, None).
Proof.
  apply (generated_duration_has_template (fun _ => 0%nat) one_task_mix
           [four_node_task] four_node_task).
  - reflexivity.
  - apply list_elem_of_singleton. reflexivity.
Defined.

(** C4 as stated fails: on a one-hour window that starts at instant 0, with
    the cluster busy until the pass whose deadline check reads 3599 and one
    second for each of squeue and sbatch, [main] records a job whose submit
    instant is 3601, after the window end 3600. *)
Lemma submit_time_after_window_end :
  exists j,
    submitted_jobs
      (snd (main env_late 1 4 "normal" 400 (fun _ => 0%nat) one_task_mix fresh_world)) = [j]
    /\ (submit_time j == 3601)%Q
    /\ (now fresh_world + total_test_seconds 1 == 3600)%Q
    /\ ~ (submit_time j < now fresh_world + total_test_seconds 1)%Q.
Proof.
  eexists. split; [vm_compute; reflexivity|].
  split_and!; [reflexivity | reflexivity |].
  vm_compute. discriminate.
Qed.

Lemma submit_time_within_latency_witness :
  exists new,
    submitted_jobs
      (snd (admission_loop env_late 4 "normal" 400 (get_duration_template_map one_task_mix)
              [four_node_task] 3600 first_task fresh_world))
    = submitted_jobs fresh_world ++ new
    /\ Forall (fun j => submit_time j < 3600 + 2 * 1)%Q new.
Proof.
  apply (submit_time_within_latency env_late 4 "normal"
           (get_duration_template_map one_task_mix) [four_node_task] 1 3600 400
           first_task fresh_world).
  intros k. simpl. destruct (_ || _); discriminate.
Defined.

Lemma failed_submission_retries_witness :
  (exists evs,
     trace (snd (loop_body env_reject 4 "normal" (get_duration_template_map one_task_mix)
                   [four_node_task] first_task fresh_world))
     = trace (snd (submit_job env_reject 4 5 (get_duration_template_map one_task_mix)
                     "normal" (after env_reject 0 (EvRun squeue_cmd) fresh_world)))
         ++ evs ++ [EvSleep 1])
  /\ fst (loop_body env_reject 4 "normal" (get_duration_template_map one_task_mix)
            [four_node_task] first_task fresh_world) = Ok first_task
  /\ submitted_jobs
       (snd (loop_body env_reject 4 "normal" (get_duration_template_map one_task_mix)
               [four_node_task] first_task fresh_world)) = []
  /\ trace (snd (loop_body env_reject 4 "normal" (get_duration_template_map one_task_mix)
                   [four_node_task] first_task fresh_world))
     = [EvRun squeue_cmd; EvRun (submit_cmd 4 "normal" "job_5min.slurm");
        EvPrint (MsgSubmitFailed (Some "job_5min.slurm")); EvSleep 1].
Proof.
  destruct (failed_submission_retries env_reject 4 "normal"
              (get_duration_template_map one_task_mix) [four_node_task]
              first_task fresh_world four_node_task 0 (None, Some "job_5min.slurm"))
    as [Hsleep Hfail].
  - reflexivity.
  - reflexivity.
  - simpl. lia.
  - reflexivity.
  - split; [exact Hsleep|]. apply Hfail. reflexivity.
Defined.

(** ** The available-node count *)

(** C9 as stated fails: with four nodes in total and a six-node job shown as
    running, the query returns 6 and the available count is -2, not 0. *)
Lemma available_nodes_not_clamped :
  fst (get_current_used_nodes env_drift fresh_world) = Ok 6
  /\ available_nodes 4 6 = -2
  /\ available_nodes 4 6 <> Z.max 0 (4 - 6).
Proof. split_and!; [reflexivity | reflexivity | discriminate]. Qed.

(** C9, as the code has it: the available count is the plain difference
    [total_nodes - used_nodes]; for a task that needs at least one node the
    admission test gives the same answer as with the difference clamped at
    0, and it is negative exactly when more nodes are in use than exist, in
    which case the test fails. *)
Theorem admission_test_as_clamped (total_nodes used_nodes node_count : Z) :
  1 <= node_count ->
  (node_count <=? available_nodes total_nodes used_nodes)
  = (node_count <=? Z.max 0 (total_nodes - used_nodes))
  /\ (total_nodes < used_nodes ->
      available_nodes total_nodes used_nodes < 0
      /\ (node_count <=? available_nodes total_nodes used_nodes) = false).
Proof.
  intros Hn. unfold available_nodes. split.
  - destruct (Z.leb_spec node_count (total_nodes - used_nodes));
      destruct (Z.leb_spec node_count (Z.max 0 (total_nodes - used_nodes))); lia.
  - intros Hlt. split; [lia|]. apply Z.leb_gt. lia.
Qed.

Lemma admission_test_as_clamped_witness :
  (4 <=? available_nodes 4 6) = (4 <=? Z.max 0 (4 - 6))
  /\ (4 < 6 -> available_nodes 4 6 < 0 /\ (4 <=? available_nodes 4 6) = false).
Proof. apply (admission_test_as_clamped 4 6 4). lia. Defined.

(** * Further properties *)

(** ** generate_task_list: the random source only decides the order *)

(** X1: two runs of [generate_task_list] on the same job mix, with any two
    random sources, either raise the same exception or return lists that are
    permutations of each other. *)
Theorem generate_task_list_order_only (rnd1 rnd2 : nat -> nat) (job_defs : list job_def) :
  match generate_task_list rnd1 job_defs, generate_task_list rnd2 job_defs with
  | Ok ts1, Ok ts2 => ts1 ≡ₚ ts2
  | Raise e1, Raise e2 => e1 = e2
  | _, _ => False
  end.
Proof.
  unfold generate_task_list.
  destruct (unshuffled_tasks job_defs) as [data|e]; simpl; [|done].
  by rewrite !shuffle_Permutation.
Qed.

(** X2: every task of a returned list carries the node count of one entry
    of the job mix and the minutes of one of that entry's duration variants. *)
Theorem generated_task_from_mix (rnd : nat -> nat) (job_defs : list job_def)
    (tasks : list task) (t : task) :
  generate_task_list rnd job_defs = Ok tasks ->
  t ∈ tasks ->
  exists jd d,
    jd ∈ job_defs /\ d ∈ durations jd
    /\ t = {| task_nodes := nodes jd; task_duration := minutes d |}.
Proof.
  intros Hgen Ht.
  destruct (generated_task_origin _ _ _ _ Hgen Ht) as (jd & d & Hjd & Hd & Hm & Hn).
  exists jd, d. split_and!; [done..|].
  destruct t as [n m]. simpl in *. by subst.
Qed.

Lemma generated_task_from_mix_witness :
  exists jd d,
    jd ∈ one_task_mix /\ d ∈ durations jd
    /\ four_node_task = {| task_nodes := nodes jd; task_duration := minutes d |}.
Proof.
  apply (generated_task_from_mix (fun _ => 0%nat) one_task_mix
           [four_node_task] four_node_task).
  - reflexivity.
  - apply list_elem_of_singleton. reflexivity.
Defined.

(** ** generate_task_list: how far the count can be off *)

Lemma py_round_bounds (q : Q) :
  (q - (1 # 2) <= inject_Z (py_round q) /\ inject_Z (py_round q) <= q + (1 # 2))%Q.
Proof.
  unfold py_round.
  pose proof (Qfloor_le q) as Hlo. pose proof (Qlt_floor q) as Hhi.
  rewrite inject_Z_plus in Hhi. change (inject_Z 1) with 1%Q in Hhi.
  destruct (Qcompare_spec (q - inject_Z (Qfloor q)) (1 # 2)) as [He|Hl|Hg].
  - destruct (Z.even (Qfloor q)).
    + split; lra.
    + rewrite inject_Z_plus. change (inject_Z 1) with 1%Q. split; lra.
  - split; lra.
  - rewrite inject_Z_plus. change (inject_Z 1) with 1%Q. split; lra.
Qed.

Lemma py_round_nonneg (q : Q) : (0 <= q)%Q -> 0 <= py_round q.
Proof.
  intros Hq. destruct (py_round_bounds q) as [Hlo _].
  assert (inject_Z (-1) < inject_Z (py_round q))%Q as Hlt.
  { change (inject_Z (-1)) with (-1)%Q. lra. }
  rewrite <- Zlt_Qlt in Hlt. lia.
Qed.

Lemma sum_Q_from (xs : list Q) (a : Q) : (fold_left Qplus xs a == a + sum_Q xs)%Q.
Proof.
  unfold sum_Q. revert a. induction xs as [|x xs IH]; intros a; simpl; [ring|].
  rewrite (IH (a + x)%Q), (IH (0 + x)%Q). ring.
Qed.

Lemma sum_Q_cons (x : Q) (xs : list Q) : (sum_Q (x :: xs) == x + sum_Q xs)%Q.
Proof. unfold sum_Q at 1. simpl. rewrite sum_Q_from. ring. Qed.

Lemma rounded_counts_Ok (cnt : Z) (ds : list duration_def) :
  Qeq_bool (sum_Q (map ratio ds)) 0 = false ->
  rounded_counts cnt ds
  = Ok (map (fun d => py_round (inject_Z cnt * ratio d / sum_Q (map ratio ds))) ds).
Proof.
  intros Hnz. unfold rounded_counts.
  generalize dependent (sum_Q (map ratio ds)). intros total Hnz.
  induction ds as [|d ds IH]; simpl; [done|].
  unfold py_div at 1. rewrite Hnz. simpl. by rewrite IH.
Qed.

(** The rounded counts add up to the count, up to half a unit per variant. *)
Lemma rounded_sum_bounds (k total : Q) (ds : list duration_def) :
  (inject_Z (sum_Z (map (fun d => py_round (k * ratio d / total)) ds))
   <= k * sum_Q (map ratio ds) / total + inject_Z (Z.of_nat (length ds)) * (1 # 2)
   /\ k * sum_Q (map ratio ds) / total - inject_Z (Z.of_nat (length ds)) * (1 # 2)
      <= inject_Z (sum_Z (map (fun d => py_round (k * ratio d / total)) ds)))%Q.
Proof.
  induction ds as [|d ds [IHhi IHlo]].
  - cbn [map length]. unfold sum_Z, sum_Q, Qdiv. cbn [fold_left].
    change (inject_Z (Z.of_nat 0)) with 0%Q. change (inject_Z 0) with 0%Q.
    assert (k * 0 * / total == 0)%Q as -> by ring. split; lra.
  - cbn [map length]. rewrite sum_Z_cons, inject_Z_plus, Nat2Z.inj_succ.
    unfold Z.succ. rewrite inject_Z_plus. change (inject_Z 1) with 1%Q.
    destruct (py_round_bounds (k * ratio d / total)) as [Hlo Hhi].
    assert (k * sum_Q (ratio d :: map ratio ds) / total
            == k * ratio d / total + k * sum_Q (map ratio ds) / total)%Q as ->.
    { rewrite sum_Q_cons. unfold Qdiv. ring. }
    split; lra.
Qed.

(** With a negative [diff], each pass of the correction loop takes one away
    or leaves the counts alone. *)
Lemma adjust_down (diff : Z) (n start : nat) (curr : list Z) :
  diff < 0 -> curr <> [] -> Forall (fun c => 0 <= c) curr ->
  exists curr',
    rfold (adjust_step diff) (seq start n) curr = Ok curr'
    /\ length curr' = length curr
    /\ Forall (fun c => 0 <= c) curr'
    /\ sum_Z curr - Z.of_nat n <= sum_Z curr' <= sum_Z curr.
Proof.
  intros Hdiff. revert start curr.
  induction n as [|n IH]; intros start curr Hne Hpos; simpl.
  - exists curr. split_and!; [done..|lia|lia].
  - unfold adjust_step at 1.
    destruct (length curr) as [|m] eqn:Hlen; [by destruct curr|].
    destruct (lookup_lt_is_Some_2 curr (start mod S m)) as [c Hc].
    { rewrite Hlen. apply Nat.mod_upper_bound. lia. }
    rewrite Hc.
    assert ((0 <? diff) = false) as -> by (apply Z.ltb_ge; lia).
    assert ((diff <? 0) = true) as -> by (by apply Z.ltb_lt).
    destruct (0 <? c) eqn:Hcpos; simpl.
    + apply Z.ltb_lt in Hcpos.
      destruct (IH (S start) (<[(start mod S m)%nat := c - 1]> curr))
        as (curr' & Hr & Hl & Hp & Hs).
      * intros Hnil. apply (f_equal length) in Hnil.
        rewrite length_insert, Hlen in Hnil. discriminate.
      * apply Forall_insert; [done|lia].
      * rewrite (sum_Z_insert _ _ c) in Hs by done.
        exists curr'. split_and!; [done| |done|lia|lia].
        by rewrite Hl, length_insert.
    + destruct (IH (S start) curr Hne Hpos) as (curr' & Hr & Hl & Hp & Hs).
      exists curr'. split_and!; [done | by rewrite Hl | done | lia | lia].
Qed.

Lemma Qeq_bool_false_pos (q : Q) : (0 < q)%Q -> Qeq_bool q 0 = false.
Proof.
  intros Hq. apply not_true_is_false. intros He. apply Qeq_bool_eq in He. lra.
Qed.

Lemma share_nonneg (cnt : Z) (r total : Q) :
  0 <= cnt -> (0 <= r)%Q -> (0 < total)%Q -> (0 <= inject_Z cnt * r / total)%Q.
Proof.
  intros Hc Hr Ht. unfold Qdiv. apply Qmult_le_0_compat.
  - apply Qmult_le_0_compat; [|done]. change 0%Q with (inject_Z 0).
    by rewrite <- Zle_Qle.
  - apply Qlt_le_weak, Qinv_lt_0_compat, Ht.
Qed.

(** What one plain entry contributes. *)
Lemma entry_tasks_bounds (jd : job_def) :
  plain_entry jd ->
  exists ts,
    entry_tasks jd = Ok ts
    /\ count jd <= Z.of_nat (length ts)
    /\ 2 * Z.of_nat (length ts) <= 2 * count jd + Z.of_nat (length (durations jd)).
Proof.
  intros (Hcnt & Hratios & Htotal).
  pose proof (Qeq_bool_false_pos _ Htotal) as Hnz.
  pose proof (rounded_counts_Ok (count jd) (durations jd) Hnz) as Hr.
  set (total := sum_Q (map ratio (durations jd))) in *.
  set (curr := map (fun d => py_round (inject_Z (count jd) * ratio d / total))
                   (durations jd)) in *.
  assert (durations jd <> []) as Hne.
  { intros Hnil. subst total. rewrite Hnil in Htotal. by apply Qlt_irrefl in Htotal. }
  assert (Forall (fun c => 0 <= c) curr) as Hpos.
  { subst curr. apply Forall_fmap. eapply Forall_impl; [exact Hratios|].
    intros d Hd. simpl. by apply py_round_nonneg, share_nonneg. }
  assert (length curr = length (durations jd)) as Hlen by (subst curr; apply length_map).
  assert (2 * sum_Z curr <= 2 * count jd + Z.of_nat (length (durations jd))) as Hhi.
  { destruct (rounded_sum_bounds (inject_Z (count jd)) total (durations jd)) as [Hb _].
    fold curr in Hb.
    assert (inject_Z (count jd) * total / total == inject_Z (count jd))%Q as He.
    { field. lra. }
    fold total in Hb. rewrite He in Hb.
    rewrite Zle_Qle, inject_Z_plus, inject_Z_mult, inject_Z_mult.
    change (inject_Z 2) with 2%Q. lra. }
  destruct (Z_le_gt_dec (sum_Z curr) (count jd)) as [Hle|Hgt].
  - destruct (entry_tasks_without_overshoot jd curr Hr Hne Hpos Hle) as (ts & Hts & Hl).
    exists ts. split_and!; [done|lia|lia].
  - destruct (adjust_down (count jd - sum_Z curr)
                (Z.to_nat (Z.abs (count jd - sum_Z curr))) 0 curr)
      as (curr' & Hfold & Hl & Hp & Hs); [lia| |done|].
    { intros Hnil. rewrite Hnil in Hlen. destruct (durations jd); [done|discriminate]. }
    unfold entry_tasks, adjust_counts. rewrite Hr. simpl. rewrite Hfold. simpl.
    eexists. split; [done|].
    rewrite materialize_length by (done || lia). lia.
Qed.

Lemma unshuffled_bounds (job_defs : list job_def) (acc : list task) :
  Forall plain_entry job_defs ->
  exists ts,
    rfold (fun data jd => do ts <~ entry_tasks jd ;; Ok (data ++ ts)) job_defs acc = Ok ts
    /\ Z.of_nat (length acc) + sum_Z (map count job_defs) <= Z.of_nat (length ts)
    /\ 2 * Z.of_nat (length ts)
       <= 2 * (Z.of_nat (length acc) + sum_Z (map count job_defs))
          + sum_Z (map (fun jd => Z.of_nat (length (durations jd))) job_defs).
Proof.
  intros Hall. revert acc. induction Hall as [|jd jds Hjd _ IH]; intros acc.
  - exists acc. unfold sum_Z. simpl. split_and!; [done|lia|lia].
  - destruct (entry_tasks_bounds jd Hjd) as (new & Hnew & Hlo & Hhi).
    destruct (IH (acc ++ new)) as (ts & Hts & Hlo' & Hhi').
    exists ts. simpl. rewrite Hnew. simpl. split; [done|].
    rewrite length_app, Nat2Z.inj_add in Hlo', Hhi'.
    rewrite !sum_Z_cons. lia.
Qed.

(** X3: on a job mix of plain entries (counts and ratios not negative, some
    ratio positive in each entry) whose ratios are whole numbers in the
    range where binary64 computes the quotients like exact arithmetic
    ([exact_entry]), [generate_task_list] returns, with at least the
    configured number of tasks and at most half a task more per duration
    variant. *)
Theorem generate_task_list_length_bounds (rnd : nat -> nat) (job_defs : list job_def) :
  forallb exact_entry job_defs = true ->
  Forall plain_entry job_defs ->
  exists ts,
    generate_task_list rnd job_defs = Ok ts
    /\ sum_Z (map count job_defs) <= Z.of_nat (length ts)
    /\ 2 * Z.of_nat (length ts)
       <= 2 * sum_Z (map count job_defs)
          + sum_Z (map (fun jd => Z.of_nat (length (durations jd))) job_defs).
Proof.
  intros _ Hall. destruct (unshuffled_bounds job_defs [] Hall) as (data & Hdata & Hlo & Hhi).
  exists (shuffle rnd data). unfold generate_task_list, unshuffled_tasks.
  rewrite Hdata, shuffle_length. simpl in *. split_and!; [done|lia|lia].
Qed.

Lemma generate_task_list_length_bounds_witness :
  exists ts,
    generate_task_list (fun _ => 0%nat) overshoot_mix = Ok ts
    /\ sum_Z (map count overshoot_mix) <= Z.of_nat (length ts)
    /\ 2 * Z.of_nat (length ts)
       <= 2 * sum_Z (map count overshoot_mix)
          + sum_Z (map (fun jd => Z.of_nat (length (durations jd))) overshoot_mix).
Proof.
  apply (generate_task_list_length_bounds (fun _ => 0%nat) overshoot_mix);
    [reflexivity|].
  apply Forall_cons. split; [|by apply Forall_nil].
  unfold plain_entry. split_and!.
  - simpl. lia.
  - simpl. repeat (apply Forall_cons; split; [vm_compute; discriminate|]).
    by apply Forall_nil.
  - reflexivity.
Defined.

(** ** generate_task_list: which job mixes it returns on *)

Lemma adjust_nonempty (diff : Z) (l : list nat) (curr : list Z) :
  curr <> [] ->
  exists curr', rfold (adjust_step diff) l curr = Ok curr' /\ length curr' = length curr.
Proof.
  revert curr. induction l as [|i l IH]; intros curr Hne; simpl; [by exists curr|].
  unfold adjust_step at 1.
  destruct (length curr) as [|m] eqn:Hlen; [by destruct curr|].
  destruct (lookup_lt_is_Some_2 curr (i mod S m)) as [c Hc].
  { rewrite Hlen. apply Nat.mod_upper_bound. lia. }
  rewrite Hc.
  assert (forall curr1, length curr1 = S m ->
            exists curr', rfold (adjust_step diff) l curr1 = Ok curr'
                          /\ length curr' = S m) as Hnext.
  { intros curr1 Hl1. destruct (IH curr1) as (curr' & Hr & Hl).
    - intros ->. discriminate.
    - exists curr'. by rewrite Hl. }
  destruct (0 <? diff); simpl; [apply Hnext; by rewrite length_insert|].
  destruct ((diff <? 0) && (0 <? c)); simpl; [apply Hnext; by rewrite length_insert|].
  by apply Hnext.
Qed.

Lemma entry_returns_true (jd : job_def) :
  entry_returns jd = true -> exists ts, entry_tasks jd = Ok ts.
Proof.
  unfold entry_returns, entry_tasks. destruct (durations jd) as [|d ds] eqn:Hds.
  - intros Hc. apply Z.eqb_eq in Hc. rewrite Hc. by eexists.
  - intros Hnz. apply negb_true_iff in Hnz.
    rewrite rounded_counts_Ok by done. simpl rbind.
    unfold adjust_counts.
    edestruct adjust_nonempty as (curr' & -> & _); [|by eexists]. done.
Qed.

Lemma entry_returns_false (jd : job_def) :
  entry_returns jd = false -> entry_tasks jd = Raise ZeroDivisionError.
Proof.
  unfold entry_returns, entry_tasks. destruct (durations jd) as [|d ds] eqn:Hds.
  - intros Hc. apply Z.eqb_neq in Hc. simpl. unfold adjust_counts.
    change (sum_Z []) with 0. rewrite Z.sub_0_r.
    destruct (Z.to_nat (Z.abs (count jd))) as [|n] eqn:Hn; [lia|done].
  - intros Hz. apply negb_false_iff in Hz.
    unfold rounded_counts. generalize dependent (sum_Q (map ratio (d :: ds))).
    intros total Hz. simpl. unfold py_div. by rewrite Hz.
Qed.

Lemma unshuffled_returns (job_defs : list job_def) (acc : list task) :
  if forallb entry_returns job_defs
  then exists ts,
         rfold (fun data jd => do ts <~ entry_tasks jd ;; Ok (data ++ ts)) job_defs acc = Ok ts
  else rfold (fun data jd => do ts <~ entry_tasks jd ;; Ok (data ++ ts)) job_defs acc
       = Raise ZeroDivisionError.
Proof.
  revert acc. induction job_defs as [|jd jds IH]; intros acc; simpl; [by eexists|].
  destruct (entry_returns jd) eqn:Hjd; simpl.
  - destruct (entry_returns_true jd Hjd) as [ts ->]. simpl. apply IH.
  - by rewrite entry_returns_false.
Qed.

(** X4: among the job mixes whose ratios are whole numbers in the range
    where binary64 computes the quotients like exact arithmetic
    ([exact_entry]), [generate_task_list] returns exactly on those whose
    every entry either has duration variants with a total ratio other than
    0, or has no variant and a count of 0; on every other one it raises
    [ZeroDivisionError], and it raises nothing else. *)
Theorem generate_task_list_returns_iff (rnd : nat -> nat) (job_defs : list job_def) :
  forallb exact_entry job_defs = true ->
  if forallb entry_returns job_defs
  then exists ts, generate_task_list rnd job_defs = Ok ts
  else generate_task_list rnd job_defs = Raise ZeroDivisionError.
Proof.
  intros _.
  pose proof (unshuffled_returns job_defs []) as H.
  unfold generate_task_list, unshuffled_tasks.
  destruct (forallb entry_returns job_defs).
  - destruct H as [data ->]. by eexists.
  - by rewrite H.
Qed.

(** ** generate_task_list: two variants of equal ratio *)

Lemma py_round_comp (q q' : Q) : (q == q')%Q -> py_round q = py_round q'.
Proof.
  intros Hq. unfold py_round. rewrite (Qfloor_comp q q' Hq).
  assert (q - inject_Z (Qfloor q') == q' - inject_Z (Qfloor q'))%Q as Hd.
  { apply Qplus_comp; [exact Hq | reflexivity]. }
  by rewrite (Qcompare_comp _ _ Hd (1 # 2) (1 # 2) (Qeq_refl _)).
Qed.

Lemma half_split (c : Z) :
  (c # 2 == inject_Z (c / 2) + inject_Z (c mod 2) * (1 # 2))%Q.
Proof.
  pose proof (Z.div_mod c 2 ltac:(lia)) as Hc.
  assert (c # 2 == inject_Z c * (1 # 2))%Q as -> by (unfold Qeq; simpl; lia).
  rewrite Hc at 1. rewrite inject_Z_plus, inject_Z_mult.
  change (inject_Z 2) with 2%Q. ring.
Qed.

(** Half of an even number is kept; half of an odd number goes to the even
    neighbour. *)
Lemma py_round_half (c : Z) :
  py_round (c # 2)
  = if Z.even c then c / 2 else if Z.even (c / 2) then c / 2 else c / 2 + 1.
Proof.
  unfold py_round. change (Qfloor (c # 2)) with (c / 2).
  pose proof (half_split c) as Hs.
  pose proof (Z.mod_pos_bound c 2 ltac:(lia)) as Hm.
  rewrite (Zeven_mod c).
  destruct (Qcompare_spec ((c # 2) - inject_Z (c / 2)) (1 # 2)) as [He|Hl|Hg].
  - assert (c mod 2 = 1) as ->; [|done].
    destruct (decide (c mod 2 = 0)) as [H0|H0]; [|lia].
    rewrite H0 in Hs. change (inject_Z 0) with 0%Q in Hs. lra.
  - assert (c mod 2 = 0) as ->; [|done].
    destruct (decide (c mod 2 = 1)) as [H1|H1]; [|lia].
    rewrite H1 in Hs. change (inject_Z 1) with 1%Q in Hs. lra.
  - exfalso.
    destruct (decide (c mod 2 = 0)) as [H0|H0].
    + rewrite H0 in Hs. change (inject_Z 0) with 0%Q in Hs. lra.
    + assert (c mod 2 = 1) as H1 by lia.
      rewrite H1 in Hs. change (inject_Z 1) with 1%Q in Hs. lra.
Qed.

Lemma equal_share (cnt : Z) (r1 r2 : Q) :
  (r1 == r2)%Q -> ~ (r1 == 0)%Q ->
  (inject_Z cnt * r1 / sum_Q [r1; r2] == cnt # 2)%Q
  /\ (inject_Z cnt * r2 / sum_Q [r1; r2] == cnt # 2)%Q
  /\ Qeq_bool (sum_Q [r1; r2]) 0 = false.
Proof.
  intros Hr Hnz.
  assert (sum_Q [r1; r2] == 2 * r1)%Q as Hsum.
  { unfold sum_Q. simpl. rewrite <- Hr. ring. }
  assert (cnt # 2 == inject_Z cnt * (1 # 2))%Q as Hc by (unfold Qeq; simpl; lia).
  split_and!.
  - rewrite Hsum, Hc. field. done.
  - rewrite Hsum, Hc, <- Hr. field. done.
  - apply not_true_is_false. intros He. apply Qeq_bool_eq in He.
    rewrite Hsum in He. apply Hnz. lra.
Qed.

Lemma take_one_from_first (a b : Z) :
  0 < a -> adjust_step (-1) [a; b] 0 = Ok [a - 1; b].
Proof. intros Ha. destruct a as [|p|p]; [lia | reflexivity | lia]. Qed.

(** X5: an entry with two duration variants of equal, non-zero ratio, a whole
    number in the range where binary64 computes the quotients like exact
    arithmetic ([exact_entry]), and a count that is not negative gets counts
    that add up to its count and differ by at most one. *)
Theorem equal_ratios_split_evenly (jd : job_def) (d1 d2 : duration_def) :
  exact_entry jd = true ->
  durations jd = [d1; d2] ->
  (ratio d1 == ratio d2)%Q ->
  ~ (ratio d1 == 0)%Q ->
  0 <= count jd ->
  exists c1 c2,
    entry_tasks jd = Ok (materialize (nodes jd) [d1; d2] [c1; c2])
    /\ 0 <= c1 /\ 0 <= c2
    /\ c1 + c2 = count jd
    /\ Z.abs (c1 - c2) <= 1.
Proof.
  intros _ Hds Hr Hnz Hcnt. unfold entry_tasks. rewrite Hds.
  destruct (equal_share (count jd) (ratio d1) (ratio d2) Hr Hnz) as (H1 & H2 & Hz).
  rewrite rounded_counts_Ok by done. cbn [map rbind].
  rewrite (py_round_comp _ _ H1), (py_round_comp _ _ H2), py_round_half.
  pose proof (Z.div_mod (count jd) 2 ltac:(lia)) as Hdm.
  pose proof (Z.mod_pos_bound (count jd) 2 ltac:(lia)) as Hm.
  pose proof (Z.div_pos (count jd) 2 Hcnt ltac:(lia)) as Hk.
  set (k := count jd / 2) in *.
  unfold adjust_counts. rewrite (Zeven_mod (count jd)).
  destruct (decide (count jd mod 2 = 0)) as [H0|H0].
  - rewrite H0. simpl (0 =? 0).  cbv iota.
    assert (count jd - sum_Z [k; k] = 0) as -> by (unfold sum_Z; simpl; lia).
    simpl. exists k, k. split_and!; [done|lia..].
  - assert (count jd mod 2 = 1) as H1' by lia. rewrite H1'. simpl (1 =? 0). cbv iota.
    rewrite (Zeven_mod k).
    pose proof (Z.div_mod k 2 ltac:(lia)) as Hdk.
    pose proof (Z.mod_pos_bound k 2 ltac:(lia)) as Hmk.
    destruct (decide (k mod 2 = 0)) as [Hk0|Hk0].
    + rewrite Hk0. simpl (0 =? 0). cbv iota.
      assert (count jd - sum_Z [k; k] = 1) as -> by (unfold sum_Z; simpl; lia).
      simpl. exists (k + 1), k. split_and!; [done|lia..].
    + assert (k mod 2 = 1) as Hk1 by lia. rewrite Hk1. simpl (1 =? 0). cbv iota.
      assert (count jd - sum_Z [k + 1; k + 1] = -1) as -> by (unfold sum_Z; simpl; lia).
      simpl. rewrite take_one_from_first by lia.
      simpl. exists (k + 1 - 1), (k + 1). split_and!; [done|lia..].
Qed.

(** ** Binary64 quotients and exact quotients *)

Lemma Qfloor_unique (y : Q) (n : Z) :
  (inject_Z n <= y)%Q -> (y < inject_Z n + 1)%Q -> Qfloor y = n.
Proof.
  intros Hlo Hhi.
  pose proof (Qfloor_le y) as Hf. pose proof (Qlt_floor y) as Hf'.
  rewrite inject_Z_plus in Hf'. change (inject_Z 1) with 1%Q in Hf'.
  assert (inject_Z (Qfloor y) < inject_Z (n + 1))%Q as H1.
  { rewrite inject_Z_plus. change (inject_Z 1) with 1%Q. lra. }
  assert (inject_Z n < inject_Z (Qfloor y + 1))%Q as H2.
  { rewrite inject_Z_plus. change (inject_Z 1) with 1%Q. lra. }
  rewrite <- Zlt_Qlt in H1, H2. lia.
Qed.

(** A value strictly between two neighbouring multiples of one half. *)
Lemma py_round_between (k : Z) (y : Q) :
  (inject_Z k < 2 * y)%Q -> (2 * y < inject_Z k + 1)%Q -> py_round y = (k + 1) / 2.
Proof.
  intros Hlo Hhi.
  pose proof (Z.div_mod k 2 ltac:(lia)) as Hk.
  pose proof (Z.mod_pos_bound k 2 ltac:(lia)) as Hm.
  remember (k / 2) as n eqn:Hn. remember (k mod 2) as m eqn:Hmod. clear Hn Hmod.
  assert (inject_Z k == 2 * inject_Z n + inject_Z m)%Q as Hkq.
  { rewrite Hk. rewrite inject_Z_plus, inject_Z_mult. reflexivity. }
  assert ((k + 1) / 2 = if decide (m = 0) then n else n + 1) as ->.
  { destruct (decide (m = 0)).
    - symmetry. apply Z.div_unique with 1; lia.
    - symmetry. apply Z.div_unique with 0; lia. }
  assert (m = 0 \/ m = 1) as Hcases by lia.
  assert (Qfloor y = n) as Hfl.
  { apply Qfloor_unique; destruct Hcases as [-> | ->];
      change (inject_Z 0) with 0%Q in Hkq; change (inject_Z 1) with 1%Q in Hkq; lra. }
  unfold py_round. rewrite Hfl.
  destruct Hcases as [-> | ->]; simpl decide;
    change (inject_Z 0) with 0%Q in Hkq; change (inject_Z 1) with 1%Q in Hkq.
  - destruct (Qcompare_spec (y - inject_Z n) (1 # 2)) as [He|Hl|Hg]; [lra|done|lra].
  - destruct (Qcompare_spec (y - inject_Z n) (1 # 2)) as [He|Hl|Hg]; [lra|lra|done].
Qed.

Lemma round_stable_pos (a b : Z) (x : Q) :
  0 < b -> Z.abs a < 2 ^ 52 ->
  (Qabs (x - inject_Z a / inject_Z b)
   <= Qabs (inject_Z a / inject_Z b) * (1 # 2 ^ 53))%Q ->
  ((exists n : Z, (2 * (inject_Z a / inject_Z b) == inject_Z n)%Q) ->
   (x == inject_Z a / inject_Z b)%Q) ->
  py_round x = py_round (inject_Z a / inject_Z b).
Proof.
  intros Hb Ha Herr Hhalf.
  pose proof (Z.div_mod (2 * a) b ltac:(lia)) as Hdm.
  pose proof (Z.mod_pos_bound (2 * a) b Hb) as Hm.
  remember ((2 * a) / b) as k eqn:Hk. remember ((2 * a) mod b) as r eqn:Hr.
  clear Hk Hr.
  set (q := (inject_Z a / inject_Z b)%Q) in *.
  set (D := (/ inject_Z b)%Q).
  assert (0 < inject_Z b)%Q as Hbq by (change 0%Q with (inject_Z 0); rewrite <- Zlt_Qlt; lia).
  assert (0 < D)%Q as HD by (by apply Qinv_lt_0_compat).
  assert (inject_Z b * D == 1)%Q as HbD.
  { unfold D. apply Qmult_inv_r. lra. }
  assert (q == inject_Z a * D)%Q as Hq by reflexivity.
  destruct (decide (r = 0)) as [H0|Hne].
  { apply py_round_comp. apply Hhalf. exists k. subst r.
    assert (inject_Z (2 * a) == inject_Z (b * k + 0))%Q as Hz by (by rewrite <- Hdm).
    rewrite inject_Z_plus, !inject_Z_mult in Hz.
    change (inject_Z 0) with 0%Q in Hz. change (inject_Z 2) with 2%Q in Hz.
    rewrite Hq.
    assert (2 * (inject_Z a * D) == 2 * inject_Z a * D)%Q as -> by ring.
    rewrite Hz.
    assert ((inject_Z b * inject_Z k + 0) * D == inject_Z k * (inject_Z b * D))%Q as -> by ring.
    rewrite HbD. ring. }
  clear Hhalf.
  assert (inject_Z k + D <= 2 * q)%Q as Hlo.
  { assert (inject_Z (k * b + 1) <= inject_Z (2 * a))%Q as Hz by (rewrite <- Zle_Qle; lia).
    rewrite inject_Z_plus, !inject_Z_mult in Hz.
    change (inject_Z 1) with 1%Q in Hz. change (inject_Z 2) with 2%Q in Hz.
    apply (Qmult_le_compat_r _ _ D) in Hz; [|lra].
    rewrite Hq.
    assert ((inject_Z k * inject_Z b + 1) * D == inject_Z k * (inject_Z b * D) + D)%Q as Hl by ring.
    rewrite Hl, HbD in Hz. lra. }
  assert (2 * q + D <= inject_Z k + 1)%Q as Hhi.
  { assert (inject_Z (2 * a + 1) <= inject_Z ((k + 1) * b))%Q as Hz by (rewrite <- Zle_Qle; lia).
    rewrite !inject_Z_plus, !inject_Z_mult, !inject_Z_plus in Hz.
    change (inject_Z 1) with 1%Q in Hz. change (inject_Z 2) with 2%Q in Hz.
    apply (Qmult_le_compat_r _ _ D) in Hz; [|lra].
    rewrite Hq.
    assert ((inject_Z k + 1) * inject_Z b * D == (inject_Z k + 1) * (inject_Z b * D))%Q as Hr by ring.
    rewrite Hr, HbD in Hz. lra. }
  assert (Qabs q <= 4503599627370495 * D)%Q as Hsize.
  { rewrite Hq, Qabs_Qmult, (Qabs_pos D) by lra.
    apply Qmult_le_compat_r; [|lra].
    change (Qabs (inject_Z a)) with (inject_Z (Z.abs a)).
    change 4503599627370495%Q with (inject_Z 4503599627370495).
    rewrite <- Zle_Qle. lia. }
  apply Qabs_Qle_condition in Herr as [Herr1 Herr2].
  change (1 # 2 ^ 53)%Q with (1 # 9007199254740992)%Q in Herr1, Herr2.
  rewrite (py_round_between k x), (py_round_between k q); [done|lra..].
Qed.

(** The margin behind [exact_entry].  A quotient [a / b] of integers with
    [a] below [2 ^ 52] in size is a multiple of one half, or it is further
    from every multiple of one half than its product with [2 ^ -53]: every
    [x] within that distance of the quotient, and equal to it when it is a
    multiple of one half, is rounded to the same integer. *)
Lemma round_stable_quotient (a b : Z) (x : Q) :
  b <> 0 -> Z.abs a < 2 ^ 52 ->
  (Qabs (x - inject_Z a / inject_Z b)
   <= Qabs (inject_Z a / inject_Z b) * (1 # 2 ^ 53))%Q ->
  ((exists n : Z, (2 * (inject_Z a / inject_Z b) == inject_Z n)%Q) ->
   (x == inject_Z a / inject_Z b)%Q) ->
  py_round x = py_round (inject_Z a / inject_Z b).
Proof.
  intros Hb Ha Herr Hhalf.
  destruct (Z_lt_le_dec 0 b) as [Hpos|Hneg]; [by apply round_stable_pos|].
  assert (inject_Z a / inject_Z b == inject_Z (- a) / inject_Z (- b))%Q as Hq.
  { rewrite !inject_Z_opp. field.
    intros H0. apply Hb. apply inject_Z_injective. exact H0. }
  rewrite (py_round_comp _ _ Hq).
  apply round_stable_pos; [lia|lia| |].
  - by rewrite <- Hq.
  - intros [n Hn]. rewrite <- Hq. apply Hhalf. exists n. by rewrite Hq.
Qed.

Lemma whole_ratio (d : duration_def) :
  Qden (ratio d) = 1%positive -> ratio d = inject_Z (Qnum (ratio d)).
Proof. destruct (ratio d) as [n p]. simpl. by intros ->. Qed.

Lemma sum_Q_whole (ds : list duration_def) (acc : Q) (z : Z) :
  Forall (fun d => Qden (ratio d) = 1%positive) ds ->
  (acc == inject_Z z)%Q ->
  (fold_left Qplus (map ratio ds) acc
   == inject_Z (fold_left Z.add (map (fun d => Qnum (ratio d)) ds) z))%Q.
Proof.
  intros Hall. revert acc z. induction Hall as [|d ds Hd _ IH]; intros acc z Hacc; simpl.
  - exact Hacc.
  - apply IH. rewrite Hacc, (whole_ratio d Hd) at 1. by rewrite inject_Z_plus.
Qed.

(** On an entry of [exact_entry], every value within the relative error
    [2 ^ -53] of a quotient [count * ratio / total_ratio], and equal to it
    when it is a multiple of one half, is rounded to the same count as the
    quotient.  The quotient that binary64 division returns is such a value:
    its operands are integers below [2 ^ 52] in size, which binary64 holds,
    as it holds their quotient when that is a multiple of one half. *)
Lemma round_stable (jd : job_def) (d : duration_def) (x : Q) :
  exact_entry jd = true ->
  d ∈ durations jd ->
  Qeq_bool (sum_Q (map ratio (durations jd))) 0 = false ->
  (Qabs (x - inject_Z (count jd) * ratio d / sum_Q (map ratio (durations jd)))
   <= Qabs (inject_Z (count jd) * ratio d / sum_Q (map ratio (durations jd)))
      * (1 # 2 ^ 53))%Q ->
  ((exists n : Z,
      (2 * (inject_Z (count jd) * ratio d / sum_Q (map ratio (durations jd)))
       == inject_Z n)%Q) ->
   (x == inject_Z (count jd) * ratio d / sum_Q (map ratio (durations jd)))%Q) ->
  py_round x
  = py_round (inject_Z (count jd) * ratio d / sum_Q (map ratio (durations jd))).
Proof.
  unfold exact_entry. intros Hex Hd Hnz Herr Hhalf.
  apply andb_true_iff in Hex as [Hex _]. apply andb_true_iff in Hex as [_ Hall].
  rewrite forallb_forall in Hall.
  assert (Forall (fun d => Qden (ratio d) = 1%positive) (durations jd)) as Hden.
  { apply Forall_forall. intros d' Hd'. apply list_elem_of_In, Hall in Hd'.
    unfold exact_ratio in Hd'. apply andb_true_iff in Hd' as [Hd' _].
    by apply Pos.eqb_eq. }
  apply list_elem_of_In, Hall in Hd. unfold exact_ratio in Hd.
  apply andb_true_iff in Hd as [Hd1 Hd2]. apply Pos.eqb_eq in Hd1. apply Z.ltb_lt in Hd2.
  pose proof (sum_Q_whole (durations jd) 0 0 Hden (Qeq_refl _)) as Hsum.
  fold (sum_Q (map ratio (durations jd))) in Hsum.
  set (b := fold_left Z.add (map (fun d => Qnum (ratio d)) (durations jd)) 0) in *.
  assert (b <> 0) as Hb.
  { intros H0. rewrite H0 in Hsum. apply Qeq_bool_neq in Hnz. by apply Hnz. }
  assert (inject_Z (count jd) * ratio d / sum_Q (map ratio (durations jd))
          == inject_Z (count jd * Qnum (ratio d)) / inject_Z b)%Q as Hq.
  { rewrite Hsum, (whole_ratio d Hd1) at 1. by rewrite inject_Z_mult. }
  rewrite (py_round_comp _ _ Hq).
  apply round_stable_quotient; [done|done| |].
  - by rewrite <- Hq.
  - intros [n Hn]. rewrite <- Hq. apply Hhalf. exists n. by rewrite Hq.
Qed.

(** ** The template map and the template files *)

Lemma add_template_lookup (templates : gmap Z string) (d : duration_def) (m : Z) :
  add_template templates d !! m
  = match templates !! m with
    | Some s => Some s
    | None => if bool_decide (m = minutes d) then Some (template_name m) else None
    end.
Proof.
  unfold add_template. destruct (templates !! minutes d) as [s0|] eqn:Hd.
  - destruct (templates !! m) as [s|] eqn:Hm; [done|].
    rewrite bool_decide_eq_false_2; [done|]. intros ->. congruence.
  - destruct (decide (m = minutes d)) as [->|Hne].
    + by rewrite lookup_insert_eq, Hd, bool_decide_eq_true_2.
    + rewrite lookup_insert_ne by done.
      destruct (templates !! m); [done|]. by rewrite bool_decide_eq_false_2.
Qed.

Lemma add_templates_lookup (ds : list duration_def) (templates : gmap Z string) (m : Z) :
  fold_left add_template ds templates !! m
  = match templates !! m with
    | Some s => Some s
    | None => if bool_decide (m ∈ map minutes ds) then Some (template_name m) else None
    end.
Proof.
  revert templates. induction ds as [|d ds IH]; intros templates; simpl.
  - destruct (templates !! m); [done|].
    by rewrite ?bool_decide_eq_false_2 by apply not_elem_of_nil.
  - rewrite IH, add_template_lookup. destruct (templates !! m); [done|].
    repeat case_bool_decide; try done; exfalso; set_solver.
Qed.

Lemma template_map_lookup_from (job_defs : list job_def) (templates : gmap Z string) (m : Z) :
  fold_left (fun t jd => fold_left add_template (durations jd) t) job_defs templates !! m
  = match templates !! m with
    | Some s => Some s
    | None => if bool_decide (m ∈ all_minutes job_defs) then Some (template_name m) else None
    end.
Proof.
  unfold all_minutes. revert templates.
  induction job_defs as [|jd jds IH]; intros templates; simpl.
  - destruct (templates !! m); [done|].
    by rewrite ?bool_decide_eq_false_2 by apply not_elem_of_nil.
  - rewrite IH, add_templates_lookup. destruct (templates !! m); [done|].
    repeat case_bool_decide; try done; exfalso; set_solver.
Qed.

(** X6: the template map has a key for exactly the minutes that some
    duration variant of the job mix mentions, and the script of a key [m] is
    named [job_<m>min.slurm]. *)
Theorem template_map_lookup (job_defs : list job_def) (m : Z) :
  get_duration_template_map job_defs !! m
  = if bool_decide (m ∈ all_minutes job_defs) then Some (template_name m) else None.
Proof.
  unfold get_duration_template_map.
  rewrite template_map_lookup_from. by rewrite lookup_empty.
Qed.

Lemma string_app_cons (a : ascii) (s t : string) : String a s +:+ t = String a (s +:+ t).
Proof. reflexivity. Qed.

Lemma string_app_length (s t : string) :
  String.length (s +:+ t) = (String.length s + String.length t)%nat.
Proof.
  induction s as [|a s IH]; [done|].
  rewrite string_app_cons. simpl. by rewrite IH.
Qed.

Lemma string_app_inj_r (s1 s2 t : string) : s1 +:+ t = s2 +:+ t -> s1 = s2.
Proof.
  revert s2. induction s1 as [|a s1 IH]; intros [|b s2] H.
  - done.
  - apply (f_equal String.length) in H.
    rewrite !string_app_length in H. simpl in H. lia.
  - apply (f_equal String.length) in H.
    rewrite !string_app_length in H. simpl in H. lia.
  - rewrite !string_app_cons in H. injection H as -> H. f_equal. by apply IH.
Qed.

Lemma template_name_inj (m1 m2 : Z) : template_name m1 = template_name m2 -> m1 = m2.
Proof.
  unfold template_name. intros H.
  apply (inj (String.app "job_")) in H.
  apply string_app_inj_r in H. by apply (inj pretty) in H.
Qed.

(** X7: two different durations of the template map never share a script
    file. *)
Theorem template_scripts_distinct (job_defs : list job_def) (m1 m2 : Z) (script : string) :
  get_duration_template_map job_defs !! m1 = Some script ->
  get_duration_template_map job_defs !! m2 = Some script ->
  m1 = m2.
Proof.
  unfold get_duration_template_map.
  rewrite !template_map_lookup_from, !lookup_empty.
  repeat case_bool_decide; try discriminate.
  intros H1 H2. rewrite <- H2 in H1. apply (inj Some) in H1.
  by apply template_name_inj.
Qed.

Lemma template_scripts_distinct_witness : (5 : Z) = 5.
Proof.
  apply (template_scripts_distinct one_task_mix 5 5 "job_5min.slurm"); reflexivity.
Defined.

(** *** write_slurm_templates *)

Lemma write_template_lookup (fs : gmap string string) (item : Z * string) (f : string) :
  write_template fs item !! f
  = match fs !! f with
    | Some c => Some c
    | None => if bool_decide (f = snd item) then Some (slurm_script (fst item * 60)) else None
    end.
Proof.
  unfold write_template. destruct (fs !! snd item) as [c0|] eqn:Hi.
  - destruct (fs !! f) eqn:Hf; [done|].
    rewrite bool_decide_eq_false_2; [done|]. intros ->. congruence.
  - destruct (decide (f = snd item)) as [->|Hne].
    + by rewrite lookup_insert_eq, Hi, bool_decide_eq_true_2.
    + rewrite lookup_insert_ne by done.
      destruct (fs !! f); [done|]. by rewrite bool_decide_eq_false_2.
Qed.

Lemma write_templates_keep (items : list (Z * string)) (fs : gmap string string)
    (f c : string) :
  fs !! f = Some c -> write_slurm_templates items fs !! f = Some c.
Proof.
  unfold write_slurm_templates. revert fs.
  induction items as [|item items IH]; intros fs Hf; simpl; [done|].
  apply IH. by rewrite write_template_lookup, Hf.
Qed.

Lemma write_templates_other (items : list (Z * string)) (fs : gmap string string) (f : string) :
  f ∉ items.*2 -> write_slurm_templates items fs !! f = fs !! f.
Proof.
  unfold write_slurm_templates. revert fs.
  induction items as [|item items IH]; intros fs Hf; simpl; [done|].
  rewrite fmap_cons, not_elem_of_cons in Hf. destruct Hf as [Hne Hf].
  rewrite IH, write_template_lookup by done.
  destruct (fs !! f); [done|]. by rewrite bool_decide_eq_false_2.
Qed.

Lemma write_templates_new (items : list (Z * string)) (fs : gmap string string)
    (d : Z) (f : string) :
  (d, f) ∈ items ->
  (forall d', (d', f) ∈ items -> d' = d) ->
  fs !! f = None ->
  write_slurm_templates items fs !! f = Some (slurm_script (d * 60)).
Proof.
  unfold write_slurm_templates. revert fs.
  induction items as [|[d0 f0] items IH]; intros fs Hin Huniq Hf; simpl.
  - by apply elem_of_nil in Hin.
  - destruct (decide (f = f0)) as [->|Hne].
    + assert (d0 = d) as -> by (apply Huniq, list_elem_of_here).
      apply (write_templates_keep items). 
      by rewrite write_template_lookup, Hf, bool_decide_eq_true_2.
    + apply IH.
      * apply elem_of_cons in Hin as [[= _ ?]|Hin]; [done|done].
      * intros d' Hd'. apply Huniq. by apply list_elem_of_further.
      * rewrite write_template_lookup, Hf. by rewrite bool_decide_eq_false_2.
Qed.

(** X8: [write_slurm_templates] never overwrites: a path that exists keeps
    its content, a path that no item names is untouched, and a missing path
    named for one duration only is created with the script that sleeps that
    duration in seconds. *)
Theorem write_slurm_templates_result (items : list (Z * string)) (fs : gmap string string)
    (d : Z) (f : string) :
  (d, f) ∈ items ->
  (forall d', (d', f) ∈ items -> d' = d) ->
  write_slurm_templates items fs !! f
    = Some (default (slurm_script (d * 60)) (fs !! f))
  /\ (forall g, g ∉ items.*2 -> write_slurm_templates items fs !! g = fs !! g)
  /\ (forall g c, fs !! g = Some c -> write_slurm_templates items fs !! g = Some c).
Proof.
  intros Hin Huniq. split_and!.
  - destruct (fs !! f) as [c|] eqn:Hf; simpl.
    + by apply write_templates_keep.
    + by apply write_templates_new.
  - intros g Hg. by apply write_templates_other.
  - intros g c Hg. by apply write_templates_keep.
Qed.

(** *** The files behind the generated tasks *)

Lemma add_template_item_named (items : list (Z * string)) (d : duration_def) :
  named_by_duration items -> named_by_duration (add_template_item items d).
Proof.
  intros Hn m f. unfold add_template_item. case_bool_decide; [apply Hn|].
  rewrite elem_of_app, list_elem_of_singleton. intros [Hin|[= -> ->]]; [by apply Hn|done].
Qed.

Lemma add_template_item_mono (items : list (Z * string)) (d : duration_def) (x : Z * string) :
  x ∈ items -> x ∈ add_template_item items d.
Proof.
  intros Hx. unfold add_template_item. case_bool_decide; [done|].
  apply elem_of_app. by left.
Qed.

Lemma add_template_item_adds (items : list (Z * string)) (d : duration_def) :
  named_by_duration items ->
  (minutes d, template_name (minutes d)) ∈ add_template_item items d.
Proof.
  intros Hn. unfold add_template_item. case_bool_decide as Hk.
  - apply list_elem_of_fmap in Hk as ([m f] & Hm & Hin). simpl in Hm. subst m.
    by rewrite <- (Hn _ _ Hin).
  - apply elem_of_app. right. apply list_elem_of_here.
Qed.

Lemma add_template_items_inv (ds : list duration_def) (items : list (Z * string)) :
  named_by_duration items ->
  named_by_duration (fold_left add_template_item ds items)
  /\ (forall x, x ∈ items -> x ∈ fold_left add_template_item ds items)
  /\ (forall m, m ∈ map minutes ds ->
        (m, template_name m) ∈ fold_left add_template_item ds items).
Proof.
  revert items. induction ds as [|d ds IH]; intros items Hn; simpl.
  - split_and!; [done..|]. intros m Hm. by apply elem_of_nil in Hm.
  - destruct (IH (add_template_item items d) (add_template_item_named _ _ Hn))
      as (Hn' & Hmono & Hadd).
    split_and!; [done| |].
    + intros x Hx. by apply Hmono, add_template_item_mono.
    + intros m [->|Hm]%elem_of_cons; [|by apply Hadd].
      by apply Hmono, add_template_item_adds.
Qed.

Lemma template_items_inv (job_defs : list job_def) (items : list (Z * string)) :
  named_by_duration items ->
  named_by_duration
    (fold_left (fun items jd => fold_left add_template_item (durations jd) items)
               job_defs items)
  /\ (forall x, x ∈ items ->
        x ∈ fold_left (fun items jd => fold_left add_template_item (durations jd) items)
              job_defs items)
  /\ (forall m, m ∈ all_minutes job_defs ->
        (m, template_name m)
        ∈ fold_left (fun items jd => fold_left add_template_item (durations jd) items)
            job_defs items).
Proof.
  unfold all_minutes. revert items.
  induction job_defs as [|jd jds IH]; intros items Hn; simpl.
  - split_and!; [done..|]. intros m Hm. by apply elem_of_nil in Hm.
  - destruct (add_template_items_inv (durations jd) items Hn) as (Hn1 & Hmono1 & Hadd1).
    destruct (IH _ Hn1) as (Hn' & Hmono & Hadd).
    split_and!; [done| |].
    + intros x Hx. by apply Hmono, Hmono1.
    + intros m [Hm|Hm]%elem_of_app; [|by apply Hadd].
      by apply Hmono, Hadd1.
Qed.

Lemma generated_duration_mentioned (rnd : nat -> nat) (job_defs : list job_def)
    (tasks : list task) (t : task) :
  generate_task_list rnd job_defs = Ok tasks -> t ∈ tasks ->
  task_duration t ∈ all_minutes job_defs.
Proof.
  intros Hgen Ht.
  destruct (generated_task_origin _ _ _ _ Hgen Ht) as (jd & d & Hjd & Hd & Hm & _).
  unfold all_minutes. rewrite Hm. apply list_elem_of_In, in_flat_map.
  exists jd. split; [by apply list_elem_of_In|].
  apply list_elem_of_In, list_elem_of_fmap. by exists d.
Qed.

(** X9: once [write_slurm_templates] has run on the items of the template
    map, the script that [submit_job] looks up for a generated task exists;
    if it was missing before, it sleeps the task's duration in seconds, and
    if a file of that name was already there, that file is used as it is. *)
Theorem generated_task_script_written (rnd : nat -> nat) (job_defs : list job_def)
    (tasks : list task) (t : task) (fs : gmap string string) :
  generate_task_list rnd job_defs = Ok tasks ->
  t ∈ tasks ->
  get_duration_template_map job_defs !! task_duration t
    = Some (template_name (task_duration t))
  /\ write_slurm_templates (template_items job_defs) fs !! template_name (task_duration t)
     = Some (default (slurm_script (task_duration t * 60))
                     (fs !! template_name (task_duration t))).
Proof.
  intros Hgen Ht.
  pose proof (generated_duration_mentioned _ _ _ _ Hgen Ht) as Hm.
  split.
  - unfold get_duration_template_map.
    by rewrite template_map_lookup_from, lookup_empty, bool_decide_eq_true_2.
  - assert (named_by_duration []) as Hnil.
    { intros m f Hin. by apply elem_of_nil in Hin. }
    destruct (template_items_inv job_defs [] Hnil) as (Hnamed & _ & Hadd).
    fold (template_items job_defs) in Hnamed, Hadd.
    destruct (fs !! template_name (task_duration t)) as [c|] eqn:Hf; simpl.
    + by apply write_templates_keep.
    + apply write_templates_new; [by apply Hadd| |done].
      intros d' Hd'. apply Hnamed in Hd'. by apply template_name_inj.
Qed.

(** [template_items] lists the template map: same bindings, each key once. *)
Lemma add_template_item_map (items : list (Z * string)) (d : duration_def) :
  NoDup items.*1 ->
  NoDup (add_template_item items d).*1
  /\ list_to_map (add_template_item items d)
     = add_template (list_to_map items : gmap Z string) d.
Proof.
  intros Hnd. unfold add_template_item, add_template. case_bool_decide as Hk.
  - split; [done|].
    destruct (list_to_map items !! minutes d) eqn:Hl; [done|].
    by apply not_elem_of_list_to_map in Hl.
  - split.
    + rewrite fmap_app. apply NoDup_app. split_and!; [done| |apply NoDup_singleton].
      intros k Hin [= ->]%list_elem_of_singleton. done.
    + apply (not_elem_of_list_to_map (M := gmap Z) (A := string)) in Hk as Hl.
      rewrite Hl. by apply list_to_map_snoc.
Qed.

Lemma add_template_items_map (ds : list duration_def) (items : list (Z * string)) :
  NoDup items.*1 ->
  NoDup (fold_left add_template_item ds items).*1
  /\ list_to_map (fold_left add_template_item ds items)
     = fold_left add_template ds (list_to_map items : gmap Z string).
Proof.
  revert items. induction ds as [|d ds IH]; intros items Hnd; simpl; [done|].
  destruct (add_template_item_map items d Hnd) as [Hnd' Heq].
  destruct (IH _ Hnd') as [Hnd'' Heq']. split; [done|]. by rewrite Heq', Heq.
Qed.

Lemma template_items_map (job_defs : list job_def) :
  NoDup (template_items job_defs).*1
  /\ list_to_map (template_items job_defs) = get_duration_template_map job_defs.
Proof.
  unfold template_items, get_duration_template_map.
  change (∅ : gmap Z string) with (list_to_map ([] : list (Z * string)) : gmap Z string).
  assert (NoDup ([] : list (Z * string)).*1) as Hnd by constructor.
  revert Hnd. generalize ([] : list (Z * string)).
  induction job_defs as [|jd jds IH]; intros items Hnd; simpl; [done|].
  destruct (add_template_items_map (durations jd) items Hnd) as [Hnd' Heq].
  destruct (IH _ Hnd') as [Hnd'' Heq']. split; [done|]. by rewrite Heq', Heq.
Qed.

(** ** Tokens of [split()] *)

Lemma rev_app_has_space (s1 s2 : string) :
  has_space (String.rev_app s1 s2) = has_space s1 || has_space s2.
Proof.
  revert s2. induction s1 as [|c s1 IH]; intros s2; simpl; [done|].
  rewrite IH. simpl. destruct (is_py_space c), (has_space s1), (has_space s2); done.
Qed.

Lemma rev_app_nonempty (s1 s2 : string) :
  s2 <> EmptyString -> String.rev_app s1 s2 <> EmptyString.
Proof.
  revert s2. induction s1 as [|c s1 IH]; intros s2 Hne; simpl; [done|].
  by apply IH.
Qed.

Lemma rev_token (acc : string) :
  acc <> EmptyString -> has_space acc = false ->
  String.rev acc <> EmptyString /\ has_space (String.rev acc) = false.
Proof.
  intros Hne Hsp. unfold String.rev. split.
  - destruct acc as [|c acc]; [done|]. simpl. by apply rev_app_nonempty.
  - by rewrite rev_app_has_space, Hsp.
Qed.

Lemma py_split_go_tokens (s : string) (cur : option string) (tok : string) :
  (forall acc, cur = Some acc -> acc <> EmptyString /\ has_space acc = false) ->
  tok ∈ py_split_go cur s ->
  tok <> EmptyString /\ has_space tok = false.
Proof.
  revert cur. induction s as [|c s IH]; intros cur Hcur; simpl.
  - destruct cur as [acc|]; simpl; [|by intros ?%elem_of_nil].
    intros ->%list_elem_of_singleton. by apply rev_token; apply Hcur.
  - destruct (is_py_space c) eqn:Hc.
    + intros [Hin|Hin]%elem_of_app.
      * destruct cur as [acc|]; simpl in Hin; [|by apply elem_of_nil in Hin].
        apply list_elem_of_singleton in Hin as ->. by apply rev_token; apply Hcur.
      * apply (IH None); [done|done].
    + apply IH. intros acc [= <-]. split; [done|]. simpl. rewrite Hc. simpl.
      destruct cur as [acc|]; simpl; [by apply Hcur|done].
Qed.

Lemma py_split_tokens (s tok : string) :
  tok ∈ py_split s -> tok <> EmptyString /\ has_space tok = false.
Proof. apply py_split_go_tokens. done. Qed.

(** ** Blank text *)

Lemma rev_app_has_nonspace (s1 s2 : string) :
  has_nonspace (String.rev_app s1 s2) = has_nonspace s1 || has_nonspace s2.
Proof.
  revert s2. induction s1 as [|c s1 IH]; intros s2; simpl; [done|].
  rewrite IH. simpl. destruct (is_py_space c), (has_nonspace s1), (has_nonspace s2); done.
Qed.

Lemma rev_has_nonspace (s : string) : has_nonspace (String.rev s) = has_nonspace s.
Proof. unfold String.rev. rewrite rev_app_has_nonspace. simpl. by rewrite orb_false_r. Qed.

Lemma py_lstrip_has_nonspace (s : string) : has_nonspace (py_lstrip s) = has_nonspace s.
Proof.
  induction s as [|c s IH]; simpl; [done|].
  destruct (is_py_space c) eqn:Hc; simpl; [done|]. by rewrite Hc.
Qed.

Lemma py_lstrip_empty (s : string) : py_lstrip s = EmptyString <-> has_nonspace s = false.
Proof.
  induction s as [|c s IH]; simpl; [done|].
  destruct (is_py_space c); simpl; [done|]. split; discriminate.
Qed.

Lemma rev_empty (s : string) : String.rev s = EmptyString <-> s = EmptyString.
Proof.
  split; [|by intros ->]. destruct s as [|c s]; [done|].
  unfold String.rev. simpl. intros H. by apply rev_app_nonempty in H.
Qed.

Lemma py_strip_empty (s : string) : py_strip s = EmptyString <-> has_nonspace s = false.
Proof.
  unfold py_strip.
  by rewrite rev_empty, py_lstrip_empty, rev_has_nonspace, py_lstrip_has_nonspace.
Qed.

Lemma py_strip_has_nonspace (s : string) : has_nonspace (py_strip s) = has_nonspace s.
Proof.
  unfold py_strip.
  by rewrite rev_has_nonspace, py_lstrip_has_nonspace, rev_has_nonspace, py_lstrip_has_nonspace.
Qed.

Lemma py_split_go_some (s acc : string) : py_split_go (Some acc) s <> [].
Proof.
  revert acc. induction s as [|c s IH]; intros acc; simpl; [done|].
  destruct (is_py_space c); [done|]. apply IH.
Qed.

(** A text splits into no field exactly when it is blank. *)
Lemma py_split_nil (s : string) : py_split s = [] <-> has_nonspace s = false.
Proof.
  unfold py_split. induction s as [|c s IH]; simpl; [done|].
  destruct (is_py_space c); simpl; [exact IH|].
  split; [|discriminate]. intros H. by apply py_split_go_some in H.
Qed.

(** ** submit_job *)

(** X10: a job handle that [submit_job] returns is the first field of the
    sbatch output; it is never empty and holds no white space, so the
    caller's test [if jobid] always accepts it; it comes with the script of
    the task's duration, from an sbatch that exited with status 0.  The one
    exception [submit_job] can raise is [IndexError], and only after an
    sbatch that exited with status 0 and printed a blank output. *)
Theorem submit_job_handle (E : env) (node_count duration_min : Z)
    (slurm_templates : gmap Z string) (queue_name : string) (w : world) :
  match fst (submit_job E node_count duration_min slurm_templates queue_name w) with
  | Ok (Some id, script) =>
      id <> EmptyString /\ has_space id = false /\ truthy (Some id) = Some id
      /\ exists s,
           slurm_templates !! duration_min = Some s /\ script = Some s
           /\ returncode (reply E (calls w) (submit_cmd node_count queue_name s)) = 0
           /\ head (py_split (py_strip
                       (stdout (reply E (calls w) (submit_cmd node_count queue_name s)))))
              = Some id
  | Ok (None, script) =>
      script = slurm_templates !! duration_min
      /\ forall s, script = Some s ->
           returncode (reply E (calls w) (submit_cmd node_count queue_name s)) <> 0
  | Raise e =>
      e = IndexError
      /\ exists s,
           slurm_templates !! duration_min = Some s
           /\ returncode (reply E (calls w) (submit_cmd node_count queue_name s)) = 0
           /\ has_nonspace
                (stdout (reply E (calls w) (submit_cmd node_count queue_name s))) = false
  end.
Proof.
  unfold submit_job. destruct (slurm_templates !! duration_min) as [s|] eqn:Hs.
  2:{ simpl. split; [done|]. discriminate. }
  unfold bind, subprocess_run, bind, external, ret, lift. simpl.
  destruct (returncode _ =? 0) eqn:Hrc; simpl.
  - apply Z.eqb_eq in Hrc.
    destruct (py_split (py_strip (stdout (reply E (calls w)
                (submit_cmd node_count queue_name s))))) as [|id rest] eqn:Hsplit; simpl.
    { split; [done|]. exists s. split_and!; [done|done|].
      apply py_split_nil in Hsplit. by rewrite py_strip_has_nonspace in Hsplit. }
    destruct (py_split_tokens (py_strip (stdout (reply E (calls w)
                (submit_cmd node_count queue_name s)))) id) as [Hne Hsp].
    { rewrite Hsplit. apply list_elem_of_here. }
    split_and!; [done|done| |].
    + by destruct id.
    + exists s. split_and!; [done|done|done|]. by rewrite Hsplit.
  - apply Z.eqb_neq in Hrc. split; [done|]. by intros s' [= <-].
Qed.

(** ** check_active_jobs *)

Lemma scan_squeue_line_inv (jobs jobs' : list active_job) (ln : string) :
  scan_squeue_line jobs ln = Ok jobs' ->
  Forall (fun j => aj_state j = "RUNNING" \/ aj_state j = "PENDING") jobs ->
  Forall (fun j => aj_state j = "RUNNING" \/ aj_state j = "PENDING") jobs'
  /\ (length jobs' <= S (length jobs))%nat.
Proof.
  unfold scan_squeue_line.
  destruct (py_split (py_strip ln)) as [|p0 [|p1 [|p2 rest]]];
    try (intros [= <-] Hall; split; [done|lia]).
  destruct (active_state p2) eqn:Hst; [|intros [= <-] Hall; split; [done|lia]].
  destruct (py_int p1) as [n|e]; simpl; [|discriminate].
  intros [= <-] Hall. split.
  - apply Forall_app. split; [done|]. apply Forall_singleton. simpl.
    unfold active_state in Hst. apply orb_true_iff in Hst.
    destruct Hst as [H|H]; apply bool_decide_eq_true in H; auto.
  - rewrite length_app. simpl. lia.
Qed.

Lemma scan_squeue_line_Raise (jobs : list active_job) (ln : string) (e : exn) :
  scan_squeue_line jobs ln = Raise e -> e = ValueError.
Proof.
  unfold scan_squeue_line.
  destruct (py_split (py_strip ln)) as [|p0 [|p1 [|p2 rest]]]; try discriminate.
  destruct (active_state p2); [|discriminate].
  unfold py_int. destruct (match py_strip p1 with | EmptyString => _ | String _ _ => _ end);
    simpl; [discriminate|congruence].
Qed.

Lemma scan_squeue_lines_inv (lines : list string) (jobs jobs' : list active_job) :
  rfold scan_squeue_line lines jobs = Ok jobs' ->
  Forall (fun j => aj_state j = "RUNNING" \/ aj_state j = "PENDING") jobs ->
  Forall (fun j => aj_state j = "RUNNING" \/ aj_state j = "PENDING") jobs'
  /\ (length jobs' <= length jobs + length lines)%nat.
Proof.
  revert jobs. induction lines as [|ln lines IH]; intros jobs; simpl.
  - intros [= <-] Hall. split; [done|lia].
  - destruct (scan_squeue_line jobs ln) as [jobs1|e] eqn:H1; simpl; [|discriminate].
    intros Hrest Hall.
    destruct (scan_squeue_line_inv _ _ _ H1 Hall) as [Hall1 Hlen1].
    destruct (IH _ Hrest Hall1) as [Hall' Hlen']. split; [done|lia].
Qed.

(** X11: the jobs that [check_active_jobs] reads from a squeue reply are all
    in state RUNNING or PENDING and are no more than the reply has lines; a
    reply with a non-zero status gives no job; the only exception is
    [ValueError], after a status of 0, and it is raised exactly when some
    line in state RUNNING or PENDING has a node count that is not an
    integer. *)
Theorem parse_squeue_outcome (r : proc_result) :
  match parse_squeue r with
  | Ok jobs =>
      Forall (fun j => aj_state j = "RUNNING" \/ aj_state j = "PENDING") jobs
      /\ (length jobs <= length (py_splitlines (stdout r)))%nat
      /\ (returncode r <> 0 -> jobs = [])
      /\ (returncode r = 0 ->
          forallb line_readable (py_splitlines (stdout r)) = true)
  | Raise e =>
      e = ValueError /\ returncode r = 0
      /\ forallb line_readable (py_splitlines (stdout r)) = false
  end.
Proof.
  unfold parse_squeue. destruct (returncode r =? 0) eqn:Hrc.
  - apply Z.eqb_eq in Hrc.
    pose proof (scan_squeue_lines_slots (py_splitlines (stdout r)) []) as Hread.
    destruct (rfold scan_squeue_line _ []) as [jobs|e] eqn:Hfold.
    + destruct (scan_squeue_lines_inv _ _ _ Hfold) as [Hall Hlen]; [done|].
      destruct Hread as [Hread _].
      split_and!; [done|simpl in Hlen; lia|done|done].
    + destruct Hread as [_ Hread]. split_and!; [|done|done].
      eapply (rfold_Raise _ (fun e => e = ValueError)); [|exact Hfold].
      intros jobs ln e'. apply scan_squeue_line_Raise.
  - apply Z.eqb_neq in Hrc. split_and!; [done|simpl; lia|done|done].
Qed.

(** ** check_jobs_finished: which line decides *)

Lemma scan_sacct_line_fields (jobids : list string) (fd : gmap string bool) (ln : string) :
  scan_sacct_line jobids fd ln
  = match sacct_fields ln with
    | Some (jid, state) =>
        if negb (has_dot jid) && bool_decide (jid ∈ jobids)
        then <[jid := bool_decide (state = "COMPLETED")]> fd
        else fd
    | None => fd
    end.
Proof.
  unfold scan_sacct_line, sacct_fields.
  by destruct (py_split (py_strip ln)) as [|jid [|state rest]].
Qed.

Lemma scan_sacct_lines_unnamed (jobids : list string) (lines : list string)
    (fd : gmap string bool) (jid : string) :
  Forall (fun ln => fst <$> sacct_fields ln <> Some jid) lines ->
  fold_left (scan_sacct_line jobids) lines fd !! jid = fd !! jid.
Proof.
  intros Hall. revert fd. induction Hall as [|ln lines Hln _ IH]; intros fd; simpl; [done|].
  rewrite IH, scan_sacct_line_fields.
  destruct (sacct_fields ln) as [[jid1 state]|]; [|done].
  destruct (negb (has_dot jid1) && bool_decide (jid1 ∈ jobids)); [|done].
  apply lookup_insert_ne. intros ->. by apply Hln.
Qed.

Lemma scan_sacct_lines_dotted (jobids : list string) (lines : list string)
    (fd : gmap string bool) (jid : string) :
  has_dot jid = true ->
  fold_left (scan_sacct_line jobids) lines fd !! jid = fd !! jid.
Proof.
  intros Hdot. revert fd. induction lines as [|ln lines IH]; intros fd; simpl; [done|].
  rewrite IH, scan_sacct_line_fields.
  destruct (sacct_fields ln) as [[jid1 state]|]; [|done].
  destruct (negb (has_dot jid1) && bool_decide (jid1 ∈ jobids)) eqn:Hc; [|done].
  apply lookup_insert_ne. intros ->. by rewrite Hdot in Hc.
Qed.

(** X12: when sacct exits with status 0, the completion state of a queried
    handle without a dot is decided by the last line of the reply whose
    first field is the handle and that has a second field: the handle maps
    to [true] exactly when that second field is COMPLETED. *)
Theorem last_sacct_line_decides (E : env) (jobids : list string) (w : world)
    (before after : list string) (ln jid state : string) :
  jid ∈ jobids ->
  has_dot jid = false ->
  returncode (reply E (calls w) (sacct_cmd jobids)) = 0 ->
  py_splitlines (stdout (reply E (calls w) (sacct_cmd jobids))) = before ++ ln :: after ->
  sacct_fields ln = Some (jid, state) ->
  Forall (fun l => fst <$> sacct_fields l <> Some jid) after ->
  exists finished_dict : gmap string bool,
    fst (check_jobs_finished E jobids w) = Ok finished_dict
    /\ finished_dict !! jid = Some (bool_decide (state = "COMPLETED")).
Proof.
  intros Hin Hdot Hrc Hlines Hln Hafter.
  destruct jobids as [|jid0 jobids]; [by apply elem_of_nil in Hin|].
  eexists. split; [reflexivity|].
  unfold resolve_finished. apply default_unfinished_keeps.
  rewrite Hrc. simpl (0 =? 0). cbv iota. rewrite Hlines, fold_left_app. simpl.
  rewrite scan_sacct_lines_unnamed by done.
  rewrite scan_sacct_line_fields, Hln, Hdot. simpl.
  rewrite bool_decide_eq_true_2 by done. apply lookup_insert_eq.
Qed.

(** X13: a queried handle that contains a dot is reported as not completed
    whatever sacct replies: lines are only matched against handles without
    a dot. *)
Theorem dotted_handle_never_completed (E : env) (jobids : list string) (w : world)
    (jid : string) :
  jid ∈ jobids ->
  has_dot jid = true ->
  exists finished_dict : gmap string bool,
    fst (check_jobs_finished E jobids w) = Ok finished_dict
    /\ finished_dict !! jid = Some false.
Proof.
  intros Hin Hdot.
  destruct jobids as [|jid0 jobids]; [by apply elem_of_nil in Hin|].
  eexists. split; [reflexivity|].
  unfold resolve_finished. apply default_unfinished_fills; [done|].
  destruct (returncode _ =? 0); [|done].
  by rewrite scan_sacct_lines_dotted.
Qed.

(** ** The admission loop: records follow the task list *)

Lemma submit_job_handle_nonempty (E : env) (n d : Z) (templates : gmap Z string)
    (q : string) (w : world) (id : string) (script : option string) :
  fst (submit_job E n d templates q w) = Ok (Some id, script) -> id <> EmptyString.
Proof.
  unfold submit_job. destruct (templates !! d) as [s|]; [|discriminate].
  unfold bind, subprocess_run, bind, external, ret, lift. simpl.
  destruct (returncode _ =? 0); [|discriminate].
  destruct (py_split _) as [|id' rest] eqn:Hsplit; simpl; [discriminate|].
  intros [= -> _].
  eapply py_split_tokens. rewrite Hsplit. apply list_elem_of_here.
Qed.

Section Passes.

Variable E : env.
Variable total_nodes : Z.
Variable queue_name : string.
Variable slurm_templates : gmap Z string.
Variable task_list : list task.

Abbreviation pass := (loop_body E total_nodes queue_name slurm_templates task_list).
Abbreviation loop := (admission_loop E total_nodes queue_name).
Abbreviation sbatch t w :=
  (submit_job E (task_nodes t) (task_duration t) slurm_templates queue_name w).

(** The pass that records a job. *)
Lemma loop_body_accepted (loc : locals) (w : world) (t : task) (used : Z)
    (id : string) (script : option string) :
  task_list !! task_index loc = Some t ->
  fst (get_current_used_nodes E w) = Ok used ->
  task_nodes t <= total_nodes - used ->
  fst (sbatch t (after E 0 (EvRun squeue_cmd) w)) = Ok (Some id, script) ->
  pass loc w
  = (Ok {| task_index := S (task_index loc); total_jobs := total_jobs loc + 1 |},
     after E 1 (EvSleep 1)
       (snd (record_submission total_nodes loc t used (Some id) script
               (snd (sbatch t (after E 0 (EvRun squeue_cmd) w))))))
  /\ record_submission total_nodes loc t used (Some id) script
       (snd (sbatch t (after E 0 (EvRun squeue_cmd) w)))
     = (Ok {| task_index := S (task_index loc); total_jobs := total_jobs loc + 1 |},
        {| now := now (snd (sbatch t (after E 0 (EvRun squeue_cmd) w)));
           calls := calls (snd (sbatch t (after E 0 (EvRun squeue_cmd) w)));
           trace := trace (snd (sbatch t (after E 0 (EvRun squeue_cmd) w)))
                    ++ [EvSaveJob (recorded_job id t
                          (now (snd (sbatch t (after E 0 (EvRun squeue_cmd) w)))) script);
                        EvPrint (MsgSubmitted (recorded_job id t
                          (now (snd (sbatch t (after E 0 (EvRun squeue_cmd) w)))) script)
                          used total_nodes)];
           submitted_jobs :=
             submitted_jobs (snd (sbatch t (after E 0 (EvRun squeue_cmd) w)))
             ++ [recorded_job id t
                   (now (snd (sbatch t (after E 0 (EvRun squeue_cmd) w)))) script] |}).
Proof.
  intros Ht Hq Hfit Hs.
  pose proof (submit_job_handle_nonempty _ _ _ _ _ _ _ _ Hs) as Hid.
  pose proof (loop_body_cases E total_nodes queue_name slurm_templates task_list loc w) as Hc.
  rewrite Ht in Hc. cbv zeta in Hc. rewrite Hq in Hc.
  apply Z.leb_le in Hfit. unfold available_nodes in Hc. rewrite Hfit, Hs in Hc.
  destruct Hc as [Hc _]. cbn [fst snd] in Hc.
  rewrite record_submission_Some in Hc |- * by done.
  split; [exact Hc|reflexivity].
Qed.

(** X14: in a pass where the task fits and [submit_job] returns a handle,
    exactly one record is appended to [submitted_jobs], with that handle, the
    task's node count and duration, the script and the instant that follows
    the submission; the record is saved to the database and printed, both
    loop counters advance by one, and the pass ends with the one-second
    sleep. *)
Theorem accepted_submission_recorded (loc : locals) (w : world) (t : task) (used : Z)
    (id : string) (script : option string) :
  task_list !! task_index loc = Some t ->
  fst (get_current_used_nodes E w) = Ok used ->
  task_nodes t <= total_nodes - used ->
  fst (sbatch t (after E 0 (EvRun squeue_cmd) w)) = Ok (Some id, script) ->
  fst (pass loc w)
    = Ok {| task_index := S (task_index loc); total_jobs := total_jobs loc + 1 |}
  /\ submitted_jobs (snd (pass loc w))
     = submitted_jobs w
         ++ [recorded_job id t
               (now (snd (sbatch t (after E 0 (EvRun squeue_cmd) w)))) script]
  /\ trace (snd (pass loc w))
     = trace (snd (sbatch t (after E 0 (EvRun squeue_cmd) w)))
         ++ [EvSaveJob (recorded_job id t
               (now (snd (sbatch t (after E 0 (EvRun squeue_cmd) w)))) script);
             EvPrint (MsgSubmitted (recorded_job id t
               (now (snd (sbatch t (after E 0 (EvRun squeue_cmd) w)))) script)
               used total_nodes);
             EvSleep 1].
Proof.
  intros Ht Hq Hfit Hs.
  destruct (loop_body_accepted loc w t used id script Ht Hq Hfit Hs) as [Hpass Hrec].
  rewrite Hpass, Hrec.
  destruct (submit_job_trace E queue_name slurm_templates t
              (after E 0 (EvRun squeue_cmd) w)) as (ev & _ & Hjobs).
  split_and!.
  - done.
  - unfold after at 1. cbn [snd external submitted_jobs]. by rewrite Hjobs.
  - unfold after at 1. cbn [snd external trace]. by rewrite <- app_assoc.
Qed.

(** What one pass does to the records and the counters. *)
Lemma loop_body_progress (loc : locals) (w : world) :
  exists new,
    submitted_jobs (snd (pass loc w)) = submitted_jobs w ++ new
    /\ map job_task new = take (length new) (drop (task_index loc) task_list)
    /\ forall loc', fst (pass loc w) = Ok loc' ->
         task_index loc' = (task_index loc + length new)%nat
         /\ total_jobs loc' = total_jobs loc + Z.of_nat (length new).
Proof.
  pose proof (loop_body_cases E total_nodes queue_name slurm_templates task_list loc w) as Hc.
  assert (forall res, fst (pass loc w) = res ->
            submitted_jobs (snd (pass loc w)) = submitted_jobs w ->
            (forall loc', res = Ok loc' -> loc' = loc) ->
            exists new,
              submitted_jobs (snd (pass loc w)) = submitted_jobs w ++ new
              /\ map job_task new = take (length new) (drop (task_index loc) task_list)
              /\ forall loc', fst (pass loc w) = Ok loc' ->
                   task_index loc' = (task_index loc + length new)%nat
                   /\ total_jobs loc' = total_jobs loc + Z.of_nat (length new)) as Hsame.
  { intros res Hres Hjobs Hloc. exists []. rewrite app_nil_r. split_and!; [done|done|].
    intros loc' Hl. rewrite Hres in Hl. apply Hloc in Hl as ->.
    simpl. split; lia. }
  destruct (task_list !! task_index loc) as [t|] eqn:Ht.
  2:{ apply (Hsame (Raise IndexError)); [by rewrite Hc|by rewrite Hc|done]. }
  cbv zeta in Hc.
  destruct (fst (get_current_used_nodes E w)) as [used|e] eqn:Hq.
  2:{ apply (Hsame (Raise e)); [by rewrite Hc|by rewrite Hc|done]. }
  destruct (task_nodes t <=? available_nodes total_nodes used) eqn:Hfit.
  2:{ apply (Hsame (Ok loc)); [by rewrite Hc|by rewrite Hc|by intros ? [= <-]]. }
  set (w1 := after E 0 (EvRun squeue_cmd) w) in *.
  destruct (submit_job_trace E queue_name slurm_templates t w1)
    as (ev & _ & Hjobs).
  destruct (fst (sbatch t w1)) as [[jid script]|e] eqn:Hs.
  2:{ apply (Hsame (Raise e)); [by rewrite Hc|rewrite Hc; simpl; by rewrite Hjobs|done]. }
  destruct jid as [id|].
  - apply Z.leb_le in Hfit. unfold available_nodes in Hfit.
    subst w1.
    destruct (loop_body_accepted loc w t used id script Ht Hq Hfit Hs) as [Hpass Hrec].
    rewrite Hpass, Hrec. unfold after at 1. cbn [fst snd external submitted_jobs].
    eexists. split; [by rewrite Hjobs|]. simpl. split.
    + rewrite (drop_S _ _ _ Ht). simpl. unfold job_task. simpl. by destruct t.
    + intros loc' [= <-]. simpl. split; lia.
  - destruct Hc as [Hc _]. cbn [fst snd] in Hc. rewrite record_submission_None in Hc.
    apply (Hsame (Ok loc));
      [by rewrite Hc|rewrite Hc; simpl; by rewrite Hjobs|by intros ? [= <-]].
Qed.

(** X15: the records that the admission loop adds to [submitted_jobs] are
    made, in order and one each, from the tasks that follow the first task
    index; when the loop returns, the task index and the job counter have
    both advanced by the number of records added. *)
Theorem admission_loop_in_order (fuel : nat) (end_time : Q) (loc : locals) (w : world) :
  exists new,
    submitted_jobs (snd (loop fuel slurm_templates task_list end_time loc w))
    = submitted_jobs w ++ new
    /\ map job_task new = take (length new) (drop (task_index loc) task_list)
    /\ forall loc', fst (loop fuel slurm_templates task_list end_time loc w) = Ok loc' ->
         task_index loc' = (task_index loc + length new)%nat
         /\ total_jobs loc' = total_jobs loc + Z.of_nat (length new).
Proof.
  revert loc w. induction fuel as [|fuel IH]; intros loc w.
  - exists []. simpl. rewrite app_nil_r. split_and!; [done|done|].
    intros loc' [= <-]. split; lia.
  - rewrite admission_loop_S.
    destruct (Qltb (now w) end_time && (task_index loc <? length task_list)%nat).
    2:{ exists []. simpl. rewrite app_nil_r. split_and!; [done|done|].
        intros loc' [= <-]. split; lia. }
    destruct (loop_body_progress loc w) as (new1 & Hj1 & Hm1 & Hl1).
    destruct (pass loc w) as [[loc1|e] w1]; simpl in *.
    + destruct (Hl1 loc1 eq_refl) as [Hidx Htot].
      destruct (IH loc1 w1) as (new2 & Hj2 & Hm2 & Hl2).
      exists (new1 ++ new2). split_and!.
      * by rewrite Hj2, Hj1, app_assoc.
      * rewrite map_app, length_app, Hm1, Hm2, Hidx.
        rewrite <- take_take_drop. by rewrite drop_drop.
      * intros loc' Hloc'. destruct (Hl2 loc' Hloc') as [Hi Ht].
        rewrite length_app, Nat2Z.inj_add. split; lia.
    + exists new1. split_and!; [done|done|discriminate].
Qed.

End Passes.

(** ** After the loop: draining, resolving, metrics *)

Lemma collect_finished_from (fd : gmap string bool) (jobs : list job_info)
    (cnt : Z) (details : list job_info) (w : world) :
  collect_finished fd jobs cnt details w
  = (Ok (cnt + Z.of_nat (length (completed_jobs fd jobs)),
         details ++ completed_jobs fd jobs),
     {| now := now w; calls := calls w;
        trace := trace w ++ map (update_event fd) jobs;
        submitted_jobs := submitted_jobs w |}).
Proof.
  unfold completed_jobs, update_event.
  revert cnt details w. induction jobs as [|j jobs IH]; intros cnt details w.
  - simpl. unfold ret. rewrite !app_nil_r, Z.add_0_r. by destruct w.
  - cbn [collect_finished map]. unfold bind, emit. rewrite filter_cons.
    destruct (decide (fd !! jobid j = Some true)) as [Hj|Hj].
    + rewrite Hj. simpl. rewrite IH. simpl.
      rewrite <- !app_assoc. simpl. do 3 f_equal. lia.
    + assert (default false (fd !! jobid j) = false) as ->.
      { destruct (fd !! jobid j) as [[|]|]; done. }
      simpl. rewrite IH. simpl. by rewrite <- !app_assoc.
Qed.

(** X16: the loop that resolves the submitted jobs counts exactly the jobs
    that the completion mapping sends to [true], keeps them in submission
    order, and issues one database update per submitted job, in order; a
    job whose handle the mapping lacks counts as not finished. *)
Theorem collect_finished_result (fd : gmap string bool) (jobs : list job_info) (w : world) :
  fst (collect_finished fd jobs 0 [] w)
    = Ok (Z.of_nat (length (completed_jobs fd jobs)), completed_jobs fd jobs)
  /\ trace (snd (collect_finished fd jobs 0 [] w)) = trace w ++ map (update_event fd) jobs
  /\ (forall j, j ∈ jobs -> fd !! jobid j = None -> j ∉ completed_jobs fd jobs).
Proof.
  rewrite collect_finished_from. simpl. split_and!; [done|done|].
  intros j Hj Hnone. unfold completed_jobs. rewrite list_elem_of_filter.
  intros [Htrue _]. congruence.
Qed.

(** The stages of a run of [main] that returns. *)
Lemma main_Ok (E : env) (test_hours : Q) (total_nodes : Z) (queue_name : string)
    (fuel : nat) (rnd : nat -> nat) (job_defs : list job_def) (w : world) (m : metrics) :
  fst (main E test_hours total_nodes queue_name fuel rnd job_defs w) = Ok m ->
  exists task_list loc w1 w2 fd w3,
    generate_task_list rnd job_defs = Ok task_list
    /\ admission_loop E total_nodes queue_name fuel (get_duration_template_map job_defs)
         task_list (now w + total_test_seconds test_hours) {| task_index := 0; total_jobs := 0 |} w
       = (Ok loc, w1)
    /\ drain E (now w + total_test_seconds test_hours) (length task_list) loc w1 = (Ok tt, w2)
    /\ check_jobs_finished E (map jobid (submitted_jobs w2)) w2 = (Ok fd, w3)
    /\ collect_finished fd (submitted_jobs w2) 0 [] w3
       = (Ok (finished_count m, finished_job_details m),
          snd (main E test_hours total_nodes queue_name fuel rnd job_defs w))
    /\ m = compute_metrics test_hours total_nodes (finished_count m) (finished_job_details m).
Proof.
  unfold main, bind, time_time, lift, get_submitted, ret. lazy beta iota zeta.
  destruct (generate_task_list rnd job_defs) as [task_list|e]; [|discriminate].
  lazy beta iota.
  destruct (admission_loop _ _ _ _ _ _ _ _ _) as [[loc|e] w1] eqn:Hloop; [|discriminate].
  destruct (drain _ _ _ _ _) as [[[]|e] w2] eqn:Hdrain; [|discriminate].
  destruct (check_jobs_finished _ _ _) as [[fd|e] w3] eqn:Hcheck; [|discriminate].
  destruct (collect_finished _ _ _ _ _) as [[[cnt details]|e] w4] eqn:Hcollect;
    [|discriminate].
  simpl. intros [= <-]. simpl.
  by exists task_list, loc, w1, w2, fd, w3.
Qed.

Lemma drain_now (E : env) (end_time : Q) (num_tasks : nat) (loc : locals) (w : world) :
  (forall k, 0 <= latency E k)%Q ->
  Qltb (now w) end_time && (task_index loc <? num_tasks)%nat = false ->
  fst (drain E end_time num_tasks loc w) = Ok tt
  /\ (end_time <= now (snd (drain E end_time num_tasks loc w)))%Q.
Proof.
  intros Hlat Hexit. unfold drain, bind, time_time, ret. simpl.
  destruct (Qltb (now w) end_time) eqn:Hnow.
  - simpl in Hexit. apply Nat.ltb_ge in Hexit.
    assert ((num_tasks <=? task_index loc)%nat = true) as -> by by apply Nat.leb_le.
    simpl. apply Qltb_lt in Hnow.
    assert (Qltb 0 (end_time - now w) = true) as ->.
    { apply Qltb_lt. lra. }
    simpl. split; [done|]. pose proof (Hlat (calls w)). lra.
  - rewrite andb_false_r. simpl. split; [done|].
    apply not_true_iff_false in Hnow. rewrite Qltb_lt in Hnow. lra.
Qed.

Lemma check_jobs_finished_now (E : env) (jobids : list string) (w : world) :
  (forall k, 0 <= latency E k)%Q ->
  (now w <= now (snd (check_jobs_finished E jobids w)))%Q.
Proof.
  intros Hlat. destruct jobids as [|jid jobids]; simpl; [lra|].
  pose proof (Hlat (calls w)). lra.
Qed.

(** X17: when no external action takes negative time and a backoff lasts at
    least a second, a run of [main] that returns has lasted the whole test
    window: its clock ends at or after the start instant plus the configured
    seconds, also when every task was submitted early. *)
Theorem main_lasts_the_window (E : env) (test_hours : Q) (total_nodes : Z)
    (queue_name : string) (fuel : nat) (rnd : nat -> nat) (job_defs : list job_def)
    (w : world) (m : metrics) :
  (forall k, 0 <= latency E k)%Q ->
  (forall k, 1 <= uniform_5_10 E k)%Q ->
  (total_test_seconds test_hours < inject_Z (Z.of_nat fuel))%Q ->
  fst (main E test_hours total_nodes queue_name fuel rnd job_defs w) = Ok m ->
  (now w + total_test_seconds test_hours
   <= now (snd (main E test_hours total_nodes queue_name fuel rnd job_defs w)))%Q.
Proof.
  intros Hlat Hback Hfuel Hm.
  destruct (main_Ok _ _ _ _ _ _ _ _ _ Hm)
    as (task_list & loc & w1 & w2 & fd & w3 & _ & Hloop & Hdrain & Hcheck & Hcollect & _).
  apply admission_loop_exit in Hloop; [|done|done|lra].
  destruct (drain_now E _ _ loc w1 Hlat Hloop) as [_ Hnow2].
  rewrite Hdrain in Hnow2. simpl in Hnow2.
  pose proof (check_jobs_finished_now E (map jobid (submitted_jobs w2)) w2 Hlat) as Hnow3.
  rewrite Hcheck in Hnow3. simpl in Hnow3.
  rewrite collect_finished_from in Hcollect. injection Hcollect as _ _ <-. simpl. lra.
Qed.

Lemma default_unfinished_no_true (jobids : list string) (fd : gmap string bool) :
  (forall jid, fd !! jid <> Some true) ->
  forall jid, fold_left default_unfinished jobids fd !! jid <> Some true.
Proof.
  revert fd. induction jobids as [|jid0 jobids IH]; intros fd Hfd; simpl; [done|].
  apply IH. intros jid. unfold default_unfinished.
  destruct (fd !! jid0) eqn:H0; [apply Hfd|].
  destruct (decide (jid0 = jid)) as [->|Hne].
  - by rewrite lookup_insert_eq.
  - rewrite lookup_insert_ne by done. apply Hfd.
Qed.

Lemma completed_jobs_none (fd : gmap string bool) (jobs : list job_info) :
  (forall jid, fd !! jid <> Some true) -> completed_jobs fd jobs = [].
Proof.
  intros Hfd. unfold completed_jobs. induction jobs as [|j jobs IH]; [done|].
  rewrite filter_cons, decide_False by apply Hfd. exact IH.
Qed.

Lemma zero_completed_metrics (test_hours : Q) (total_nodes : Z) :
  (system_throughput (compute_metrics test_hours total_nodes 0 []) == 0)%Q
  /\ (resource_utilization (compute_metrics test_hours total_nodes 0 []) == 0)%Q.
Proof.
  simpl. unfold compute_throughput, compute_utilization, node_seconds. simpl.
  change (inject_Z 0) with 0%Q. split.
  - destruct (Qltb 0 _); [|reflexivity]. unfold Qdiv. ring.
  - destruct (Qltb 0 _); [|reflexivity]. unfold Qdiv. ring.
Qed.

(** [main] ends with the resolution of the submitted jobs and the metrics. *)
Lemma main_ends_with_measure (E : env) (test_hours : Q) (total_nodes : Z)
    (queue_name : string) (fuel : nat) (rnd : nat -> nat) (job_defs : list job_def) :
  main E test_hours total_nodes queue_name fuel rnd job_defs
  = (run start_time <~ time_time ;;
     run task_list <~ lift (generate_task_list rnd job_defs) ;;
     run loc <~ admission_loop E total_nodes queue_name fuel
                  (get_duration_template_map job_defs) task_list
                  (start_time + total_test_seconds test_hours)%Q
                  {| task_index := 0; total_jobs := 0 |} ;;
     run _ <~ drain E (start_time + total_test_seconds test_hours)%Q
                (length task_list) loc ;;
     resolve_and_measure E test_hours total_nodes).
Proof. reflexivity. Qed.

Lemma failed_query_no_true (E : env) (jobids : list string) (w : world) :
  returncode (reply E (calls w) (sacct_cmd jobids)) <> 0 ->
  exists finished_dict,
    fst (check_jobs_finished E jobids w) = Ok finished_dict
    /\ (forall jid, finished_dict !! jid <> Some true)
    /\ trace (snd (check_jobs_finished E jobids w))
       = trace w ++ match jobids with
                    | [] => []
                    | _ => [EvRun (sacct_cmd jobids)]
                    end.
Proof.
  intros Hrc. destruct jobids as [|jid0 jobids].
  - exists ∅. simpl. split_and!; [done| |by rewrite app_nil_r].
    intros jid. by rewrite lookup_empty.
  - eexists. split; [reflexivity|]. split; [|reflexivity].
    simpl. unfold resolve_finished. apply Z.eqb_neq in Hrc. rewrite Hrc.
    apply default_unfinished_no_true. intros jid. by rewrite lookup_empty.
Qed.

Lemma update_events_none (fd : gmap string bool) (jobs : list job_info) :
  (forall jid, fd !! jid <> Some true) ->
  map (update_event fd) jobs = map (fun j => EvUpdateJob (jobid j) 0) jobs.
Proof.
  intros Hfd. apply map_ext. intros j. unfold update_event.
  specialize (Hfd (jobid j)). by destruct (fd !! jobid j) as [[]|].
Qed.

(** X18: when the sacct query for the submitted jobs exits with a non-zero
    status, the last stage of [main] (the node count and the window being
    below [2 ^ 53] in size) runs that one query, marks every submitted job as
    not finished in the database, and computes the metrics of a run without
    a completed job: no node-second, a throughput of 0 and a utilization of
    0, however many jobs were submitted. *)
Theorem metrics_without_accounting (E : env) (test_hours : Q) (total_nodes : Z)
    (w : world) :
  Z.abs total_nodes < 2 ^ 53 ->
  (Qabs test_hours < inject_Z (2 ^ 53))%Q ->
  returncode (reply E (calls w) (sacct_cmd (map jobid (submitted_jobs w)))) <> 0 ->
  exists m,
    fst (resolve_and_measure E test_hours total_nodes w) = Ok m
    /\ finished_count m = 0
    /\ finished_job_details m = []
    /\ sum_Nj_Tj m = 0
    /\ (system_throughput m == 0)%Q
    /\ (resource_utilization m == 0)%Q
    /\ trace (snd (resolve_and_measure E test_hours total_nodes w))
       = trace w
         ++ match submitted_jobs w with
            | [] => []
            | _ => [EvRun (sacct_cmd (map jobid (submitted_jobs w)))]
            end
         ++ map (fun j => EvUpdateJob (jobid j) 0) (submitted_jobs w).
Proof.
  intros _ _ Hrc.
  destruct (failed_query_no_true E _ w Hrc) as (fd & Hcheck & Hfd & Htrace).
  unfold resolve_and_measure, bind, get_submitted, ret.
  destruct (check_jobs_finished E (map jobid (submitted_jobs w)) w) as [r w1] eqn:Hq.
  simpl in Hcheck, Htrace. subst r.
  rewrite collect_finished_from, (completed_jobs_none fd _ Hfd). simpl.
  destruct (zero_completed_metrics test_hours total_nodes) as [Ht Hu].
  exists (compute_metrics test_hours total_nodes 0 []).
  split_and!; [done|done|done|done|exact Ht|exact Hu|].
  rewrite Htrace, (update_events_none fd _ Hfd), <- app_assoc.
  by destruct (submitted_jobs w).
Qed.

(** X19: when no external action takes negative time and a backoff lasts at
    least a second, the admission loop makes no more passes than the window
    has seconds left: with that many passes allowed, allowing more changes
    nothing, and a loop that returns has left because the window is over or
    no task remains. *)
Theorem admission_loop_terminates (E : env) (total_nodes : Z) (queue_name : string)
    (slurm_templates : gmap Z string) (task_list : list task) (end_time : Q)
    (fuel extra : nat) (loc : locals) (w : world) :
  (forall k, 0 <= latency E k)%Q ->
  (forall k, 1 <= uniform_5_10 E k)%Q ->
  (end_time - now w < inject_Z (Z.of_nat fuel))%Q ->
  admission_loop E total_nodes queue_name (fuel + extra) slurm_templates task_list
    end_time loc w
  = admission_loop E total_nodes queue_name fuel slurm_templates task_list end_time loc w
  /\ forall loc' w',
       admission_loop E total_nodes queue_name fuel slurm_templates task_list
         end_time loc w = (Ok loc', w') ->
       (end_time <= now w')%Q \/ (length task_list <= task_index loc')%nat.
Proof.
  intros Hlat Hback Hfuel. split.
  - by apply admission_loop_enough_fuel.
  - intros loc' w' Hloop.
    apply admission_loop_exit in Hloop; [|done..].
    apply andb_false_iff in Hloop as [Hnow|Hidx].
    + left. apply not_true_iff_false in Hnow. rewrite Qltb_lt in Hnow. lra.
    + right. by apply Nat.ltb_ge.
Qed.

(** ** load_config *)

(** X20: on a configuration whose queue name, when it is a string, is an
    ASCII text, [load_config] returns only a queue name that is a string
    with a character other than white space, and ends in [sys.exit(1)]
    exactly when the configuration has a ["queue_name"] that is not such a
    string; a configuration without the key gets the queue ["kshcnormal"],
    and the other three values default to 4.5 hours, 64 nodes and no job. *)
Theorem load_config_outcome (cfg : gmap string json) :
  queue_name_ascii cfg = true ->
  match load_config cfg with
  | Loaded test_hours total_nodes queue_name job_defs =>
      has_nonspace queue_name = true
      /\ default (JStr "kshcnormal") (cfg !! "queue_name") = JStr queue_name
      /\ test_hours = default (JNum (9 # 2)) (cfg !! "total_test_hours")
      /\ total_nodes = default (JNum 64) (cfg !! "total_nodes")
      /\ job_defs = default (JArr []) (cfg !! "jobs")
  | SysExit code =>
      code = 1
      /\ exists v, cfg !! "queue_name" = Some v
                   /\ forall s, v = JStr s -> has_nonspace s = false
  end.
Proof.
  intros _. unfold load_config.
  destruct (cfg !! "queue_name") as [v|] eqn:Hq; simpl.
  - destruct v as [|b|q|s|items|fields];
      try (split; [done|]; eexists; split; [done|]; discriminate).
    destruct (decide (py_strip s = EmptyString)) as [He|Hne].
    + split; [done|]. eexists. split; [done|]. intros s' [= <-]. by apply py_strip_empty.
    + split_and!; [|done..]. rewrite py_strip_empty in Hne. by destruct (has_nonspace s).
  - split_and!; done.
Qed.

(** ** Instances of the further properties *)

Lemma generate_task_list_returns_iff_witness :
  exists ts, generate_task_list (fun _ => 0%nat) overshoot_mix = Ok ts.
Proof.
  apply (generate_task_list_returns_iff (fun _ => 0%nat) overshoot_mix).
  reflexivity.
Defined.

Lemma load_config_outcome_witness :
  has_nonspace "debug" = true
  /\ default (JStr "kshcnormal") (debug_queue !! "queue_name") = JStr "debug"
  /\ JNum (9 # 2) = default (JNum (9 # 2)) (debug_queue !! "total_test_hours")
  /\ JNum 64 = default (JNum 64) (debug_queue !! "total_nodes")
  /\ JArr [] = default (JArr []) (debug_queue !! "jobs").
Proof.
  apply (load_config_outcome debug_queue).
  reflexivity.
Defined.

Lemma equal_ratios_split_evenly_witness :
  exists c1 c2,
    entry_tasks even_entry = Ok (materialize 2 [mk_dur 5 1; mk_dur 10 1] [c1; c2])
    /\ 0 <= c1 /\ 0 <= c2
    /\ c1 + c2 = 3
    /\ Z.abs (c1 - c2) <= 1.
Proof.
  apply (equal_ratios_split_evenly even_entry (mk_dur 5 1) (mk_dur 10 1)).
  - reflexivity.
  - reflexivity.
  - reflexivity.
  - discriminate.
  - simpl. lia.
Defined.

Lemma write_slurm_templates_result_witness :
  write_slurm_templates [(5, "job_5min.slurm")] ∅ !! "job_5min.slurm"
    = Some (default (slurm_script (5 * 60)) ((∅ : gmap string string) !! "job_5min.slurm"))
  /\ (forall g, g ∉ [(5, "job_5min.slurm")].*2 ->
        write_slurm_templates [(5, "job_5min.slurm")] ∅ !! g
        = (∅ : gmap string string) !! g)
  /\ (forall g c, (∅ : gmap string string) !! g = Some c ->
        write_slurm_templates [(5, "job_5min.slurm")] ∅ !! g = Some c).
Proof.
  apply (write_slurm_templates_result [(5, "job_5min.slurm")] ∅ 5 "job_5min.slurm").
  - apply list_elem_of_singleton. reflexivity.
  - intros d' Hd'. apply list_elem_of_singleton in Hd'. congruence.
Defined.

Lemma generated_task_script_written_witness :
  get_duration_template_map one_task_mix !! 5 = Some (template_name 5)
  /\ write_slurm_templates (template_items one_task_mix) ∅ !! template_name 5
     = Some (default (slurm_script (5 * 60))
                     ((∅ : gmap string string) !! template_name 5)).
Proof.
  apply (generated_task_script_written (fun _ => 0%nat) one_task_mix
           [four_node_task] four_node_task ∅).
  - reflexivity.
  - apply list_elem_of_singleton. reflexivity.
Defined.

Lemma last_sacct_line_decides_witness :
  exists finished_dict : gmap string bool,
    fst (check_jobs_finished env_idle ["101"] fresh_world) = Ok finished_dict
    /\ finished_dict !! "101" = Some (bool_decide ("COMPLETED" = "COMPLETED")).
Proof.
  apply (last_sacct_line_decides env_idle ["101"] fresh_world [] [] "101 COMPLETED"
           "101" "COMPLETED").
  - apply list_elem_of_singleton. reflexivity.
  - reflexivity.
  - reflexivity.
  - reflexivity.
  - reflexivity.
  - constructor.
Defined.

Lemma dotted_handle_never_completed_witness :
  exists finished_dict : gmap string bool,
    fst (check_jobs_finished env_idle ["101.batch"] fresh_world) = Ok finished_dict
    /\ finished_dict !! "101.batch" = Some false.
Proof.
  apply (dotted_handle_never_completed env_idle ["101.batch"] fresh_world "101.batch").
  - apply list_elem_of_singleton. reflexivity.
  - reflexivity.
Defined.

Lemma accepted_submission_recorded_witness :
  fst (loop_body env_idle 4 "normal" (get_duration_template_map one_task_mix)
         [four_node_task] first_task fresh_world)
    = Ok {| task_index := 1; total_jobs := 0 + 1 |}
  /\ submitted_jobs
       (snd (loop_body env_idle 4 "normal" (get_duration_template_map one_task_mix)
               [four_node_task] first_task fresh_world))
     = [recorded_job "101" four_node_task 0 (Some "job_5min.slurm")].
Proof.
  destruct (accepted_submission_recorded env_idle 4 "normal"
              (get_duration_template_map one_task_mix) [four_node_task]
              first_task fresh_world four_node_task 0 "101" (Some "job_5min.slurm"))
    as (Hres & Hjobs & _).
  - reflexivity.
  - reflexivity.
  - simpl. lia.
  - reflexivity.
  - split; [exact Hres|]. rewrite Hjobs. reflexivity.
Defined.

Lemma main_lasts_the_window_witness :
  (now fresh_world + total_test_seconds (1 # 3600)
   <= now (snd (main env_idle (1 # 3600) 4 "normal" 2 (fun _ => 0%nat)
                  one_task_mix fresh_world)))%Q.
Proof.
  eapply (main_lasts_the_window env_idle (1 # 3600) 4 "normal" 2 (fun _ => 0%nat)
            one_task_mix fresh_world).
  - intros k. simpl. discriminate.
  - intros k. simpl. discriminate.
  - reflexivity.
  - vm_compute. reflexivity.
Defined.

Lemma metrics_without_accounting_witness :
  exists m,
    fst (resolve_and_measure env_no_accounting 1 4 after_one_submission) = Ok m
    /\ finished_count m = 0
    /\ finished_job_details m = []
    /\ sum_Nj_Tj m = 0
    /\ (system_throughput m == 0)%Q
    /\ (resource_utilization m == 0)%Q
    /\ trace (snd (resolve_and_measure env_no_accounting 1 4 after_one_submission))
       = [EvRun "sacct -j 101 --format=JobID,State --noheader"; EvUpdateJob "101" 0].
Proof.
  apply (metrics_without_accounting env_no_accounting 1 4 after_one_submission).
  - reflexivity.
  - reflexivity.
  - vm_compute. discriminate.
Defined.

Lemma admission_loop_terminates_witness :
  admission_loop env_idle 4 "normal" (2 + 5) (get_duration_template_map one_task_mix)
    [four_node_task] 1 first_task fresh_world
  = admission_loop env_idle 4 "normal" 2 (get_duration_template_map one_task_mix)
      [four_node_task] 1 first_task fresh_world
  /\ forall loc' w',
       admission_loop env_idle 4 "normal" 2 (get_duration_template_map one_task_mix)
         [four_node_task] 1 first_task fresh_world = (Ok loc', w') ->
       (1 <= now w')%Q \/ (length [four_node_task] <= task_index loc')%nat.
Proof.
  apply (admission_loop_terminates env_idle 4 "normal"
           (get_duration_template_map one_task_mix) [four_node_task] 1 2 5
           first_task fresh_world).
  - intros k. simpl. discriminate.
  - intros k. simpl. discriminate.
  - reflexivity.
Defined.
